(** * mac-volt-monitor: the telemetry collector of [power_monitor.py]

    A shallow embedding of the data model ([PowerData]), of the
    background collector ([DataCollector.run_command], [DataCollector.run])
    and of the drawing helpers and key commands of the renderer
    ([draw_battery_bar], [draw_power_flow], [draw_box], the graph block and
    the key handling of [main_loop]), together with the properties of the
    parse-and-update cycle and of what is drawn.

    Conventions of the embedding.
    - Python [int] is [Z]; Python [float] is an IEEE-754 binary64 value,
      represented by [spec_float] with the operations of [SpecFloat]
      (round to nearest, ties to even).  An attribute that holds an [int]
      at construction and a [float] later has type [pynum].
    - Python [str] is [string]; a character is its code point, so the texts
      covered are those whose code points are below 256.  On that range the
      classes [\s], [\d] and [\w] of [re] are the ones defined below.
    - [int(...)] on a string raises [ValueError] above 4300 digits, the
      interpreter's default limit on integer string conversion.
    - Exceptions are values: arithmetic returns an [outcome], and the
      collector runs in a state-and-exception monad over [PowerData]. *)

From Stdlib Require Import ZArith List String Ascii Bool Lia SpecFloat DecimalString
  DecimalPos.
Import ListNotations.
Local Open Scope Z_scope.

(** ** Exceptions and outcomes *)

Inductive exn : Type :=
| OverflowError
| ZeroDivisionError
| ValueError
| TimeoutExpired        (* subprocess.TimeoutExpired *)
| OSError               (* the child could not be spawned *)
| UnicodeDecodeError    (* the captured output is not text *)
| KeyboardInterrupt.    (* a BaseException that is not an Exception *)

(** [isinstance(e, Exception)] *)
Definition is_Exception (e : exn) : bool :=
  match e with
  | KeyboardInterrupt => false
  | _ => true
  end.

Inductive outcome (A : Type) : Type :=
| Ok (a : A)
| Raise (e : exn).
Arguments Ok {A} a.
Arguments Raise {A} e.

Definition obind {A B} (o : outcome A) (k : A -> outcome B) : outcome B :=
  match o with
  | Ok a => k a
  | Raise e => Raise e
  end.

Notation "'let!' x ':=' e 'in' k" := (obind e (fun x => k))
  (at level 10, x name, e at level 100, k at level 200).

(** ** Binary64 arithmetic as Python performs it *)

Module Float64.

Definition prec : Z := 53.
Definition emax : Z := 1024.

Definition float : Type := spec_float.

Definition mul : float -> float -> float := SFmul prec emax.
Definition div : float -> float -> float := SFdiv prec emax.
Definition sub : float -> float -> float := SFsub prec emax.

Definition is_finite (x : float) : bool :=
  match x with
  | S754_zero _ | S754_finite _ _ _ => true
  | S754_infinity _ | S754_nan => false
  end.

Definition is_zero (x : float) : bool :=
  match x with
  | S754_zero _ => true
  | _ => false
  end.

(** The binary64 value nearest to the integer [z]. *)
Definition of_Z (z : Z) : float := binary_normalize prec emax z 0 false.

(** The binary64 value nearest to the quotient [a / b] of a natural
    number by a positive one, with sign [s]: the rounding of
    [long_true_divide] and of the conversion of a decimal literal. *)
Definition of_ratio (s : bool) (a : Z) (b : positive) : float :=
  match a with
  | Zpos _ =>
      let '(q, e, l) := SFdiv_core_binary prec emax a 0 (Zpos b) 0 in
      binary_round_aux prec emax s q e l
  | _ => S754_zero s
  end.

(** Nearest integer to [a / b], ties to the even one ([0 <= a]). *)
Definition round_half_even (a : Z) (b : positive) : Z :=
  let q := a / Zpos b in
  match (2 * (a mod Zpos b) ?= Zpos b) with
  | Lt => q
  | Gt => q + 1
  | Eq => if Z.even q then q else q + 1
  end.

(** [|x| * 10^n] rounded to an integer, for the finite [m * 2^e]. *)
Definition scaled_digits (m : positive) (e : Z) (n : nat) : Z :=
  let p := 10 ^ Z.of_nat n in
  match e with
  | Zneg d => round_half_even (Zpos m * p) (2 ^ d)%positive
  | _ => Zpos m * 2 ^ e * p
  end.

(** [float.__round__] with [ndigits = n >= 0]: a finite value is rounded
    to [n] decimals (ties to even on the exact binary value) and the
    decimal result is converted back to binary64; beyond 323 decimals
    every binary64 value is already exact.  Infinities and NaN round to
    themselves. *)
Definition round_ndigits (x : float) (n : nat) : float :=
  match x with
  | S754_finite s m e =>
      if (323 <? Z.of_nat n) then x
      else of_ratio s (scaled_digits m e n) (Z.to_pos (10 ^ Z.of_nat n))
  | _ => x
  end.

(** Exact comparison of a float with an integer, as
    [float_richcompare] does; [None] on NaN. *)
Definition compare_Z (x : float) (z : Z) : option comparison :=
  match x with
  | S754_nan => None
  | S754_infinity s => Some (if s then Lt else Gt)
  | S754_zero _ => Some (0 ?= z)
  | S754_finite s m e =>
      let v := if s then Zneg m else Zpos m in
      match e with
      | Zneg d => Some (v ?= z * Zpos (2 ^ d))
      | _ => Some (v * 2 ^ e ?= z)
      end
  end.

(** [0 <= x] in the sense of Python's comparison. *)
Definition nonneg (x : float) : bool :=
  match compare_Z x 0 with
  | Some (Gt | Eq) => true
  | _ => false
  end.

End Float64.

(** ** Python numbers *)

Inductive pynum : Type :=
| PInt (z : Z)
| PFloat (x : Float64.float).

(** Conversion of an operand to [float] ([PyLong_AsDouble] on an [int]). *)
Definition to_float (a : pynum) : outcome Float64.float :=
  match a with
  | PFloat x => Ok x
  | PInt z =>
      let x := Float64.of_Z z in
      if Float64.is_finite x then Ok x else Raise OverflowError
  end.

(** [a * b] *)
Definition py_mul (a b : pynum) : outcome pynum :=
  match a, b with
  | PInt x, PInt y => Ok (PInt (x * y))
  | _, _ =>
      obind (to_float a) (fun x =>
      obind (to_float b) (fun y => Ok (PFloat (Float64.mul x y))))
  end.

(** [a - b] *)
Definition py_sub (a b : pynum) : outcome pynum :=
  match a, b with
  | PInt x, PInt y => Ok (PInt (x - y))
  | _, _ =>
      obind (to_float a) (fun x =>
      obind (to_float b) (fun y => Ok (PFloat (Float64.sub x y))))
  end.

(** [a / b]: true division.  Two integers are divided exactly and the
    quotient rounded once. *)
Definition py_truediv (a b : pynum) : outcome pynum :=
  match a, b with
  | PInt x, PInt y =>
      match y with
      | Z0 => Raise ZeroDivisionError
      | _ =>
          let s := xorb (x <? 0) (y <? 0) in
          let q := Float64.of_ratio s (Z.abs x) (Z.to_pos (Z.abs y)) in
          if Float64.is_finite q then Ok (PFloat q) else Raise OverflowError
      end
  | _, _ =>
      obind (to_float a) (fun x =>
      obind (to_float b) (fun y =>
        if Float64.is_zero y then Raise ZeroDivisionError
        else Ok (PFloat (Float64.div x y))))
  end.

(** [abs(a)] *)
Definition py_abs (a : pynum) : pynum :=
  match a with
  | PInt z => PInt (Z.abs z)
  | PFloat x => PFloat (SFabs x)
  end.

(** [round(a, n)] for [n >= 0]; an [int] rounds to itself. *)
Definition py_round (a : pynum) (n : nat) : pynum :=
  match a with
  | PInt z => PInt z
  | PFloat x => PFloat (Float64.round_ndigits x n)
  end.

(** [a > z] for an integer [z]. *)
Definition py_gt_int (a : pynum) (z : Z) : bool :=
  match a with
  | PInt x => z <? x
  | PFloat x =>
      match Float64.compare_Z x z with
      | Some Gt => true
      | _ => false
      end
  end.

(** [a == z] for an integer [z]. *)
Definition py_eq_int (a : pynum) (z : Z) : bool :=
  match a with
  | PInt x => x =? z
  | PFloat x =>
      match Float64.compare_Z x z with
      | Some Eq => true
      | _ => false
      end
  end.

(** [0 <= a] *)
Definition py_nonneg (a : pynum) : bool :=
  match a with
  | PInt x => 0 <=? x
  | PFloat x => Float64.nonneg x
  end.

(** The literals of the source. *)
Definition lit_273_15 : pynum := PFloat (Float64.of_ratio false 27315 100).
Definition lit_2_0 : pynum := PFloat (Float64.of_Z 2).
Definition lit_5_0 : pynum := PFloat (Float64.of_Z 5).
Definition lit_0_5 : pynum := PFloat (Float64.of_ratio false 5 10).

(** ** The arithmetic expressions of the collector *)

(** [round((raw / 10) - 273.15, 1)] *)
Definition expr_temperature (raw : Z) : outcome pynum :=
  let! k := py_truediv (PInt raw) (PInt 10) in
  let! c := py_sub k lit_273_15 in
  Ok (py_round c 1).

(** [raw / 1000] *)
Definition expr_millis (raw : Z) : outcome pynum :=
  py_truediv (PInt raw) (PInt 1000).

(** [round(voltage * abs(amperage) / 1000, 2)] *)
Definition expr_power (voltage : pynum) (amperage : Z) : outcome pynum :=
  let! p := py_mul voltage (py_abs (PInt amperage)) in
  let! w := py_truediv p (PInt 1000) in
  Ok (py_round w 2).

(** [round((current_capacity / design_capacity) * 100, 1)] *)
Definition expr_health (current_capacity design_capacity : Z) : outcome pynum :=
  let! f := py_truediv (PInt current_capacity) (PInt design_capacity) in
  let! p := py_mul f (PInt 100) in
  Ok (py_round p 1).

(** [round((now - start_time) * 1000, 0)] *)
Definition expr_latency (start_time now : Float64.float) : outcome pynum :=
  let! d := py_sub (PFloat now) (PFloat start_time) in
  let! m := py_mul d (PInt 1000) in
  Ok (py_round m 0).

(** ** Text: the fragment of [str] and [re] that the collector uses *)

Module Re.
Local Open Scope string_scope.

Definition dquote : ascii := "034"%char.
Definition newline : string := String "010"%char "".

(** The key [k] between double quotes, as the registry dump prints it. *)
Definition quoted (k : string) : string :=
  String dquote (k ++ String dquote "").

Definition between (lo hi : N) (c : ascii) : bool :=
  ((lo <=? N_of_ascii c) && (N_of_ascii c <=? hi))%N.

(** [\s] *)
Definition is_space (c : ascii) : bool :=
  between 9 13 c || between 28 32 c || between 133 133 c || between 160 160 c.

(** [\d] *)
Definition is_digit (c : ascii) : bool := between 48 57 c.

(** [\w] *)
Definition is_word (c : ascii) : bool :=
  is_digit c || between 65 90 c || between 95 95 c || between 97 122 c
  || between 170 170 c || between 178 179 c || between 181 181 c
  || between 185 186 c || between 188 190 c || between 192 214 c
  || between 216 246 c || between 248 255 c.

(** A literal at the head of the text; the rest of the text on success. *)
Fixpoint lit (p s : string) : option string :=
  match p with
  | "" => Some s
  | String c p' =>
      match s with
      | String d s' => if Ascii.eqb c d then lit p' s' else None
      | "" => None
      end
  end.

(** One character of a class. *)
Definition one (f : ascii -> bool) (s : string) : option (ascii * string) :=
  match s with
  | String c s' => if f c then Some (c, s') else None
  | "" => None
  end.

(** The longest prefix in a class, and the rest: a greedy [f*].  Every
    pattern of the source follows such a repetition by a character not
    in the class (or by nothing), so giving characters back cannot turn
    a failure into a match. *)
Fixpoint span (f : ascii -> bool) (s : string) : string * string :=
  match s with
  | String c s' =>
      if f c then let '(a, r) := span f s' in (String c a, r) else ("", s)
  | "" => ("", "")
  end.

(** Greedy [f+]. *)
Definition many1 (f : ascii -> bool) (s : string) : option (string * string) :=
  match span f s with
  | ("", _) => None
  | (a, r) => Some (a, r)
  end.

Definition skip (f : ascii -> bool) (s : string) : string := snd (span f s).

(** An optional literal followed by [k]: the literal is tried first and
    given back when the continuation fails. *)
Definition opt_lit {A} (p : string) (k : string -> option A) (s : string) : option A :=
  match lit p s with
  | Some r => match k r with
              | Some a => Some a
              | None => k s
              end
  | None => k s
  end.

(** [re.search]: the match at the leftmost position where the anchored
    matcher [m] succeeds. *)
Fixpoint search {A} (m : string -> option A) (s : string) : option A :=
  match m s with
  | Some a => Some a
  | None =>
      match s with
      | String _ s' => search m s'
      | "" => None
      end
  end.

(** [p in s] *)
Definition contains (p s : string) : bool :=
  match search (lit p) s with
  | Some _ => true
  | None => false
  end.

Definition and_then {A B} (o : option A) (k : A -> option B) : option B :=
  match o with
  | Some a => k a
  | None => None
  end.

(** ["KEY"\s*=\s*] *)
Definition key_eq (key : string) (s : string) : option string :=
  and_then (lit (quoted key) s) (fun s1 =>
  and_then (lit "=" (skip is_space s1)) (fun s2 =>
  Some (skip is_space s2))).

(** ["KEY"\s*=\s*(\d+)], group 1 *)
Definition kv_digits (key : string) (s : string) : option string :=
  and_then (key_eq key s) (fun s1 =>
  and_then (many1 is_digit s1) (fun '(ds, _) => Some ds)).

(** ["KEY"\s*=\s*(-?\d+)], group 1 *)
Definition kv_signed (key : string) (s : string) : option string :=
  and_then (key_eq key s) (fun s1 =>
  let unsigned := and_then (many1 is_digit s1) (fun '(ds, _) => Some ds) in
  match lit "-" s1 with
  | Some r =>
      match many1 is_digit r with
      | Some (ds, _) => Some ("-" ++ ds)
      | None => unsigned
      end
  | None => unsigned
  end).

(** ["(?:AppleRaw)?AdapterDetails"\s*=\s*\{([^}]+)\}], group 1 *)
Definition adapter_details (s : string) : option string :=
  and_then (lit (String dquote "") s) (fun s0 =>
  opt_lit "AppleRaw"
    (fun s1 =>
       and_then (lit ("AdapterDetails" ++ String dquote "") s1) (fun s2 =>
       and_then (lit "=" (skip is_space s2)) (fun s3 =>
       and_then (lit "{" (skip is_space s3)) (fun s4 =>
       and_then (many1 (fun c => negb (Ascii.eqb c "}")) s4) (fun '(body, s5) =>
       and_then (lit "}" s5) (fun _ => Some body))))))
    s0).

(** [[ ,]\"?NAME\"?[:=](\d+)], group 1 *)
Definition sub_field (name : string) (s : string) : option string :=
  and_then (one (fun c => Ascii.eqb c " " || Ascii.eqb c ",") s) (fun '(_, s1) =>
  opt_lit (String dquote "")
    (fun s2 =>
       and_then (lit name s2) (fun s3 =>
       opt_lit (String dquote "")
         (fun s4 =>
            and_then (one (fun c => Ascii.eqb c ":" || Ascii.eqb c "=") s4) (fun '(_, s5) =>
            and_then (many1 is_digit s5) (fun '(ds, _) => Some ds)))
         s3))
    s1).

(** [Condition:\s*(\w+)], group 1 *)
Definition condition_word (s : string) : option string :=
  and_then (lit "Condition:" s) (fun s1 =>
  and_then (many1 is_word (skip is_space s1)) (fun '(w, _) => Some w)).

(** [lowpowermode\s+(\d)], group 1 *)
Definition lowpowermode_digit (s : string) : option string :=
  and_then (lit "lowpowermode" s) (fun s1 =>
  and_then (many1 is_space s1) (fun '(_, s2) =>
  and_then (one is_digit s2) (fun '(d, _) => Some (String d "")))).

(** The value of a string of decimal digits. *)
Fixpoint digits_value (acc : Z) (s : string) : Z :=
  match s with
  | String c s' => digits_value (10 * acc + (Z.of_N (N_of_ascii c) - 48)) s'
  | "" => acc
  end.

(** The integer a captured group denotes: decimal digits after an
    optional [-]. *)
Definition py_int (g : string) : Z :=
  match g with
  | String "-" ds => - digits_value 0 ds
  | _ => digits_value 0 g
  end.

(** [sys.get_int_max_str_digits()] at its default: the most digits [int]
    converts. *)
Definition int_max_str_digits : nat := 4300.

(** [int(g)] on a captured group: the integer it denotes, or
    [ValueError] when the group has more digits than the limit. *)
Definition py_int_str (g : string) : outcome Z :=
  let digits := match g with
                | String "-" ds => ds
                | _ => g
                end in
  if (int_max_str_digits <? String.length digits)%nat then Raise ValueError
  else Ok (py_int g).

(** [str(n)] of an integer, as an f-string prints it (of a number of at
    most 4300 digits, which is what the program prints). *)
Definition py_str (n : Z) : string := NilZero.string_of_int (Z.to_int n).

End Re.

Import Re.
Local Open Scope string_scope.

(** ** Bounded history: [collections.deque(maxlen=n)] *)

Record deque : Type := mk_deque { maxlen : nat; items : list pynum }.

(** [d.append(x)]: the sample goes to the right end, and the leftmost one
    is dropped when the length exceeds [maxlen]. *)
Definition deque_append (d : deque) (x : pynum) : deque :=
  let l := (items d ++ [x])%list in
  mk_deque (maxlen d) (if (maxlen d <? List.length l)%nat then tl l else l).

(** ** The snapshot: [class PowerData] *)

Record PowerData : Type := mk_PowerData {
  power_source : string;
  battery_percent : Z;
  charging_status : string;
  time_remaining : string;
  cycle_count : Z;
  condition : string;
  max_capacity_percent : pynum;
  charger_wattage : Z;
  charger_connected : bool;
  fully_charged : bool;
  low_power_mode : bool;
  temperature : pynum;
  voltage : pynum;
  amperage : Z;
  power_watts : pynum;
  adapter_voltage : pynum;
  adapter_current : Z;
  adapter_watts : Z;
  serial : string;
  design_capacity : Z;
  current_capacity : Z;
  mode : string;
  poll_interval : pynum;
  power_history : deque;
  temp_history : deque;
  last_update_time : Z;
  poll_latency : pynum
}.

(** Attribute assignments [self.data.f = v]. *)

Definition set_power_source (v : string) (s : PowerData) : PowerData :=
  mk_PowerData
    v (battery_percent s) (charging_status s) (time_remaining s)
    (cycle_count s) (condition s) (max_capacity_percent s)
    (charger_wattage s) (charger_connected s) (fully_charged s)
    (low_power_mode s) (temperature s) (voltage s) (amperage s)
    (power_watts s) (adapter_voltage s) (adapter_current s)
    (adapter_watts s) (serial s) (design_capacity s) (current_capacity s)
    (mode s) (poll_interval s) (power_history s) (temp_history s)
    (last_update_time s) (poll_latency s).

Definition set_charger_connected (v : bool) (s : PowerData) : PowerData :=
  mk_PowerData
    (power_source s) (battery_percent s) (charging_status s)
    (time_remaining s) (cycle_count s) (condition s)
    (max_capacity_percent s) (charger_wattage s) v (fully_charged s)
    (low_power_mode s) (temperature s) (voltage s) (amperage s)
    (power_watts s) (adapter_voltage s) (adapter_current s)
    (adapter_watts s) (serial s) (design_capacity s) (current_capacity s)
    (mode s) (poll_interval s) (power_history s) (temp_history s)
    (last_update_time s) (poll_latency s).

Definition set_battery_percent (v : Z) (s : PowerData) : PowerData :=
  mk_PowerData
    (power_source s) v (charging_status s) (time_remaining s)
    (cycle_count s) (condition s) (max_capacity_percent s)
    (charger_wattage s) (charger_connected s) (fully_charged s)
    (low_power_mode s) (temperature s) (voltage s) (amperage s)
    (power_watts s) (adapter_voltage s) (adapter_current s)
    (adapter_watts s) (serial s) (design_capacity s) (current_capacity s)
    (mode s) (poll_interval s) (power_history s) (temp_history s)
    (last_update_time s) (poll_latency s).

Definition set_charging_status (v : string) (s : PowerData) : PowerData :=
  mk_PowerData
    (power_source s) (battery_percent s) v (time_remaining s)
    (cycle_count s) (condition s) (max_capacity_percent s)
    (charger_wattage s) (charger_connected s) (fully_charged s)
    (low_power_mode s) (temperature s) (voltage s) (amperage s)
    (power_watts s) (adapter_voltage s) (adapter_current s)
    (adapter_watts s) (serial s) (design_capacity s) (current_capacity s)
    (mode s) (poll_interval s) (power_history s) (temp_history s)
    (last_update_time s) (poll_latency s).

Definition set_time_remaining (v : string) (s : PowerData) : PowerData :=
  mk_PowerData
    (power_source s) (battery_percent s) (charging_status s) v
    (cycle_count s) (condition s) (max_capacity_percent s)
    (charger_wattage s) (charger_connected s) (fully_charged s)
    (low_power_mode s) (temperature s) (voltage s) (amperage s)
    (power_watts s) (adapter_voltage s) (adapter_current s)
    (adapter_watts s) (serial s) (design_capacity s) (current_capacity s)
    (mode s) (poll_interval s) (power_history s) (temp_history s)
    (last_update_time s) (poll_latency s).

Definition set_temperature (v : pynum) (s : PowerData) : PowerData :=
  mk_PowerData
    (power_source s) (battery_percent s) (charging_status s)
    (time_remaining s) (cycle_count s) (condition s)
    (max_capacity_percent s) (charger_wattage s) (charger_connected s)
    (fully_charged s) (low_power_mode s) v (voltage s) (amperage s)
    (power_watts s) (adapter_voltage s) (adapter_current s)
    (adapter_watts s) (serial s) (design_capacity s) (current_capacity s)
    (mode s) (poll_interval s) (power_history s) (temp_history s)
    (last_update_time s) (poll_latency s).

Definition set_voltage (v : pynum) (s : PowerData) : PowerData :=
  mk_PowerData
    (power_source s) (battery_percent s) (charging_status s)
    (time_remaining s) (cycle_count s) (condition s)
    (max_capacity_percent s) (charger_wattage s) (charger_connected s)
    (fully_charged s) (low_power_mode s) (temperature s) v (amperage s)
    (power_watts s) (adapter_voltage s) (adapter_current s)
    (adapter_watts s) (serial s) (design_capacity s) (current_capacity s)
    (mode s) (poll_interval s) (power_history s) (temp_history s)
    (last_update_time s) (poll_latency s).

Definition set_amperage (v : Z) (s : PowerData) : PowerData :=
  mk_PowerData
    (power_source s) (battery_percent s) (charging_status s)
    (time_remaining s) (cycle_count s) (condition s)
    (max_capacity_percent s) (charger_wattage s) (charger_connected s)
    (fully_charged s) (low_power_mode s) (temperature s) (voltage s) v
    (power_watts s) (adapter_voltage s) (adapter_current s)
    (adapter_watts s) (serial s) (design_capacity s) (current_capacity s)
    (mode s) (poll_interval s) (power_history s) (temp_history s)
    (last_update_time s) (poll_latency s).

Definition set_power_watts (v : pynum) (s : PowerData) : PowerData :=
  mk_PowerData
    (power_source s) (battery_percent s) (charging_status s)
    (time_remaining s) (cycle_count s) (condition s)
    (max_capacity_percent s) (charger_wattage s) (charger_connected s)
    (fully_charged s) (low_power_mode s) (temperature s) (voltage s)
    (amperage s) v (adapter_voltage s) (adapter_current s) (adapter_watts s)
    (serial s) (design_capacity s) (current_capacity s) (mode s)
    (poll_interval s) (power_history s) (temp_history s)
    (last_update_time s) (poll_latency s).

Definition set_power_history (v : deque) (s : PowerData) : PowerData :=
  mk_PowerData
    (power_source s) (battery_percent s) (charging_status s)
    (time_remaining s) (cycle_count s) (condition s)
    (max_capacity_percent s) (charger_wattage s) (charger_connected s)
    (fully_charged s) (low_power_mode s) (temperature s) (voltage s)
    (amperage s) (power_watts s) (adapter_voltage s) (adapter_current s)
    (adapter_watts s) (serial s) (design_capacity s) (current_capacity s)
    (mode s) (poll_interval s) v (temp_history s) (last_update_time s)
    (poll_latency s).

Definition set_cycle_count (v : Z) (s : PowerData) : PowerData :=
  mk_PowerData
    (power_source s) (battery_percent s) (charging_status s)
    (time_remaining s) v (condition s) (max_capacity_percent s)
    (charger_wattage s) (charger_connected s) (fully_charged s)
    (low_power_mode s) (temperature s) (voltage s) (amperage s)
    (power_watts s) (adapter_voltage s) (adapter_current s)
    (adapter_watts s) (serial s) (design_capacity s) (current_capacity s)
    (mode s) (poll_interval s) (power_history s) (temp_history s)
    (last_update_time s) (poll_latency s).

Definition set_design_capacity (v : Z) (s : PowerData) : PowerData :=
  mk_PowerData
    (power_source s) (battery_percent s) (charging_status s)
    (time_remaining s) (cycle_count s) (condition s)
    (max_capacity_percent s) (charger_wattage s) (charger_connected s)
    (fully_charged s) (low_power_mode s) (temperature s) (voltage s)
    (amperage s) (power_watts s) (adapter_voltage s) (adapter_current s)
    (adapter_watts s) (serial s) v (current_capacity s) (mode s)
    (poll_interval s) (power_history s) (temp_history s)
    (last_update_time s) (poll_latency s).

Definition set_current_capacity (v : Z) (s : PowerData) : PowerData :=
  mk_PowerData
    (power_source s) (battery_percent s) (charging_status s)
    (time_remaining s) (cycle_count s) (condition s)
    (max_capacity_percent s) (charger_wattage s) (charger_connected s)
    (fully_charged s) (low_power_mode s) (temperature s) (voltage s)
    (amperage s) (power_watts s) (adapter_voltage s) (adapter_current s)
    (adapter_watts s) (serial s) (design_capacity s) v (mode s)
    (poll_interval s) (power_history s) (temp_history s)
    (last_update_time s) (poll_latency s).

Definition set_max_capacity_percent (v : pynum) (s : PowerData) : PowerData :=
  mk_PowerData
    (power_source s) (battery_percent s) (charging_status s)
    (time_remaining s) (cycle_count s) (condition s) v (charger_wattage s)
    (charger_connected s) (fully_charged s) (low_power_mode s)
    (temperature s) (voltage s) (amperage s) (power_watts s)
    (adapter_voltage s) (adapter_current s) (adapter_watts s) (serial s)
    (design_capacity s) (current_capacity s) (mode s) (poll_interval s)
    (power_history s) (temp_history s) (last_update_time s) (poll_latency s).

Definition set_adapter_voltage (v : pynum) (s : PowerData) : PowerData :=
  mk_PowerData
    (power_source s) (battery_percent s) (charging_status s)
    (time_remaining s) (cycle_count s) (condition s)
    (max_capacity_percent s) (charger_wattage s) (charger_connected s)
    (fully_charged s) (low_power_mode s) (temperature s) (voltage s)
    (amperage s) (power_watts s) v (adapter_current s) (adapter_watts s)
    (serial s) (design_capacity s) (current_capacity s) (mode s)
    (poll_interval s) (power_history s) (temp_history s)
    (last_update_time s) (poll_latency s).

Definition set_adapter_current (v : Z) (s : PowerData) : PowerData :=
  mk_PowerData
    (power_source s) (battery_percent s) (charging_status s)
    (time_remaining s) (cycle_count s) (condition s)
    (max_capacity_percent s) (charger_wattage s) (charger_connected s)
    (fully_charged s) (low_power_mode s) (temperature s) (voltage s)
    (amperage s) (power_watts s) (adapter_voltage s) v (adapter_watts s)
    (serial s) (design_capacity s) (current_capacity s) (mode s)
    (poll_interval s) (power_history s) (temp_history s)
    (last_update_time s) (poll_latency s).

Definition set_charger_wattage (v : Z) (s : PowerData) : PowerData :=
  mk_PowerData
    (power_source s) (battery_percent s) (charging_status s)
    (time_remaining s) (cycle_count s) (condition s)
    (max_capacity_percent s) v (charger_connected s) (fully_charged s)
    (low_power_mode s) (temperature s) (voltage s) (amperage s)
    (power_watts s) (adapter_voltage s) (adapter_current s)
    (adapter_watts s) (serial s) (design_capacity s) (current_capacity s)
    (mode s) (poll_interval s) (power_history s) (temp_history s)
    (last_update_time s) (poll_latency s).

Definition set_poll_latency (v : pynum) (s : PowerData) : PowerData :=
  mk_PowerData
    (power_source s) (battery_percent s) (charging_status s)
    (time_remaining s) (cycle_count s) (condition s)
    (max_capacity_percent s) (charger_wattage s) (charger_connected s)
    (fully_charged s) (low_power_mode s) (temperature s) (voltage s)
    (amperage s) (power_watts s) (adapter_voltage s) (adapter_current s)
    (adapter_watts s) (serial s) (design_capacity s) (current_capacity s)
    (mode s) (poll_interval s) (power_history s) (temp_history s)
    (last_update_time s) v.

Definition set_condition (v : string) (s : PowerData) : PowerData :=
  mk_PowerData
    (power_source s) (battery_percent s) (charging_status s)
    (time_remaining s) (cycle_count s) v (max_capacity_percent s)
    (charger_wattage s) (charger_connected s) (fully_charged s)
    (low_power_mode s) (temperature s) (voltage s) (amperage s)
    (power_watts s) (adapter_voltage s) (adapter_current s)
    (adapter_watts s) (serial s) (design_capacity s) (current_capacity s)
    (mode s) (poll_interval s) (power_history s) (temp_history s)
    (last_update_time s) (poll_latency s).

Definition set_low_power_mode (v : bool) (s : PowerData) : PowerData :=
  mk_PowerData
    (power_source s) (battery_percent s) (charging_status s)
    (time_remaining s) (cycle_count s) (condition s)
    (max_capacity_percent s) (charger_wattage s) (charger_connected s)
    (fully_charged s) v (temperature s) (voltage s) (amperage s)
    (power_watts s) (adapter_voltage s) (adapter_current s)
    (adapter_watts s) (serial s) (design_capacity s) (current_capacity s)
    (mode s) (poll_interval s) (power_history s) (temp_history s)
    (last_update_time s) (poll_latency s).

Definition set_mode (v : string) (s : PowerData) : PowerData :=
  mk_PowerData
    (power_source s) (battery_percent s) (charging_status s)
    (time_remaining s) (cycle_count s) (condition s)
    (max_capacity_percent s) (charger_wattage s) (charger_connected s)
    (fully_charged s) (low_power_mode s) (temperature s) (voltage s)
    (amperage s) (power_watts s) (adapter_voltage s) (adapter_current s)
    (adapter_watts s) (serial s) (design_capacity s) (current_capacity s) v
    (poll_interval s) (power_history s) (temp_history s)
    (last_update_time s) (poll_latency s).

Definition set_poll_interval (v : pynum) (s : PowerData) : PowerData :=
  mk_PowerData
    (power_source s) (battery_percent s) (charging_status s)
    (time_remaining s) (cycle_count s) (condition s)
    (max_capacity_percent s) (charger_wattage s) (charger_connected s)
    (fully_charged s) (low_power_mode s) (temperature s) (voltage s)
    (amperage s) (power_watts s) (adapter_voltage s) (adapter_current s)
    (adapter_watts s) (serial s) (design_capacity s) (current_capacity s)
    (mode s) v (power_history s) (temp_history s) (last_update_time s)
    (poll_latency s).

(** [PowerData.__init__] *)
Definition PowerData_init : PowerData :=
  {| power_source := "Unknown";
     battery_percent := 0;
     charging_status := "Unknown";
     time_remaining := "Unknown";
     cycle_count := 0;
     condition := "Checking...";
     max_capacity_percent := PInt 100;
     charger_wattage := 0;
     charger_connected := false;
     fully_charged := false;
     low_power_mode := false;
     temperature := PInt 0;
     voltage := PInt 0;
     amperage := 0;
     power_watts := PInt 0;
     adapter_voltage := PInt 0;
     adapter_current := 0;
     adapter_watts := 0;
     serial := "Unknown";
     design_capacity := 0;
     current_capacity := 0;
     mode := "BALANCED";
     poll_interval := lit_2_0;
     power_history := mk_deque 100 [];
     temp_history := mk_deque 100 [];
     last_update_time := 0;
     poll_latency := PInt 0 |}.

(** ** State and exceptions

    A computation reads and writes the shared snapshot and either returns a
    value or raises; the snapshot keeps the writes made before the raise. *)

Definition M (A : Type) : Type := PowerData -> PowerData * outcome A.

Definition ret {A} (a : A) : M A := fun s => (s, Ok a).

Definition bind {A B} (m : M A) (k : A -> M B) : M B :=
  fun s =>
    match m s with
    | (s', Ok a) => k a s'
    | (s', Raise e) => (s', Raise e)
    end.

Definition get {A} (f : PowerData -> A) : M A := fun s => (s, Ok (f s)).

Definition modify (f : PowerData -> PowerData) : M unit := fun s => (f s, Ok tt).

Definition lift {A} (o : outcome A) : M A := fun s => (s, o).

Notation "x <- m ;; k" := (bind m (fun x => k))
  (at level 61, m at next level, right associativity).
Notation "m ;; k" := (bind m (fun _ => k))
  (at level 61, right associativity).

(** ** The telemetry source adapter: [DataCollector.run_command] *)

(** The keyword arguments of [subprocess.run]. *)
Record run_request : Type := mk_request {
  req_args : list string;
  req_capture_output : bool;
  req_text : bool;
  req_timeout : Z;
  req_shell : bool
}.

(** What [subprocess.run] does: it returns a [CompletedProcess] (whatever
    the exit code, since [check] is not set) or raises. *)
Inductive proc_result : Type :=
| Completed (returncode : Z) (stdout stderr : string)
| Failed (e : exn).

Definition run_command (subprocess_run : run_request -> proc_result)
    (cmd_args : list string) : outcome string :=
  match subprocess_run (mk_request cmd_args true true 5 false) with
  | Completed _ stdout _ => Ok stdout
  | Failed e => if is_Exception e then Ok "" else Raise e
  end.

(** ** The collector: [DataCollector.run] *)

Record DataCollector : Type := mk_DataCollector {
  running : bool;
  last_slow_check : pynum
}.

(** [DataCollector.__init__] *)
Definition DataCollector_init : DataCollector := mk_DataCollector true (PInt 0).

Section ParseUpdate.

Variable ioreg_out : string.

(** Basic source and connection *)
Definition ext_conn : bool :=
  contains (quoted "ExternalConnected" ++ " = Yes") ioreg_out
  || contains (quoted "AppleRawExternalConnected" ++ " = Yes") ioreg_out.

Definition update_source : M unit :=
  modify (set_power_source (if ext_conn then "AC Power" else "Battery")) ;;
  modify (set_charger_connected ext_conn).

(** Percentage *)
Definition update_percent : M unit :=
  let cur_cap := search (kv_digits "CurrentCapacity") ioreg_out in
  let max_cap := search (kv_digits "MaxCapacity") ioreg_out in
  match cur_cap, max_cap with
  | Some c, Some _ =>
      n <- lift (py_int_str c) ;;
      modify (set_battery_percent n)
  | _, _ => ret tt
  end.

(** Charging status *)
Definition update_charging_status : M unit :=
  let is_charging := contains (quoted "IsCharging" ++ " = Yes") ioreg_out in
  let fully_charged := contains (quoted "FullyCharged" ++ " = Yes") ioreg_out in
  if fully_charged then modify (set_charging_status "Fully Charged")
  else if is_charging then modify (set_charging_status "Charging")
  else modify (set_charging_status
                 (if negb ext_conn then "Discharging" else "Connected")).

(** Time remaining *)
Definition update_time_remaining : M unit :=
  match search (kv_digits "TimeRemaining") ioreg_out with
  | Some g =>
      mins <- lift (py_int_str g) ;;
      if (mins =? 65535)%Z then modify (set_time_remaining "Calculating...")
      else modify (set_time_remaining
                     (py_str (mins / 60) ++ "h " ++ py_str (mins mod 60) ++ "m"))
  | None => ret tt
  end.

(** Temperature (deciKelvin) *)
Definition update_temperature : M unit :=
  match search (kv_digits "Temperature") ioreg_out with
  | Some g =>
      n <- lift (py_int_str g) ;;
      r <- lift (expr_temperature n) ;;
      modify (set_temperature r)
  | None => ret tt
  end.

(** Voltage *)
Definition update_voltage : M unit :=
  match search (kv_digits "Voltage") ioreg_out with
  | Some g =>
      n <- lift (py_int_str g) ;;
      v <- lift (expr_millis n) ;;
      modify (set_voltage v)
  | None => ret tt
  end.

(** Amperage, instantaneous reading first *)
Definition a_match : option string :=
  match search (kv_signed "InstantAmperage") ioreg_out with
  | Some g => Some g
  | None => search (kv_signed "Amperage") ioreg_out
  end.

Definition update_amperage : M unit :=
  match a_match with
  | Some g =>
      amp <- lift (py_int_str g) ;;
      let amp := if (2 ^ 63 <? amp)%Z then amp - 2 ^ 64 else amp in
      modify (set_amperage amp)
  | None => ret tt
  end.

(** Power draw and its history *)
Definition update_power : M unit :=
  v <- get voltage ;;
  a <- get amperage ;;
  r <- lift (expr_power v a) ;;
  modify (set_power_watts r) ;;
  h <- get power_history ;;
  x <- get power_watts ;;
  modify (set_power_history (deque_append h x)).

(** Health and cycles *)
Definition update_cycle_count : M unit :=
  match search (kv_digits "CycleCount") ioreg_out with
  | Some g =>
      n <- lift (py_int_str g) ;;
      modify (set_cycle_count n)
  | None => ret tt
  end.

Definition update_design_capacity : M unit :=
  match search (kv_digits "DesignCapacity") ioreg_out with
  | Some g =>
      n <- lift (py_int_str g) ;;
      modify (set_design_capacity n)
  | None => ret tt
  end.

Definition update_health : M unit :=
  match search (kv_digits "AppleRawMaxCapacity") ioreg_out with
  | Some g =>
      n <- lift (py_int_str g) ;;
      modify (set_current_capacity n) ;;
      d <- get design_capacity ;;
      if (0 <? d)%Z then
        c <- get current_capacity ;;
        d <- get design_capacity ;;
        r <- lift (expr_health c d) ;;
        modify (set_max_capacity_percent r)
      else ret tt
  | None => ret tt
  end.

(** Charger details, read inside the brace group only *)
Definition update_charger : M unit :=
  match search adapter_details ioreg_out with
  | Some ad_str =>
      match search (sub_field "AdapterVoltage") (" " ++ ad_str) with
      | Some g =>
          n <- lift (py_int_str g) ;;
          v <- lift (expr_millis n) ;;
          modify (set_adapter_voltage v)
      | None => ret tt
      end ;;
      match search (sub_field "Current") (" " ++ ad_str) with
      | Some g =>
          n <- lift (py_int_str g) ;;
          modify (set_adapter_current n)
      | None => ret tt
      end ;;
      match search (sub_field "Watts") (" " ++ ad_str) with
      | Some g =>
          n <- lift (py_int_str g) ;;
          modify (set_charger_wattage n)
      | None => ret tt
      end
  | None => ret tt
  end.

(** Metadata: [start_time] is the clock at the start of the cycle, [now]
    the clock when the update ends. *)
Definition update_latency (start_time now : Float64.float) : M unit :=
  r <- lift (expr_latency start_time now) ;;
  modify (set_poll_latency r).

(** The block run under the lock, in the order of the source. *)
Definition parse_update (start_time now : Float64.float) : M unit :=
  update_source ;;
  update_percent ;;
  update_charging_status ;;
  update_time_remaining ;;
  update_temperature ;;
  update_voltage ;;
  update_amperage ;;
  update_power ;;
  update_cycle_count ;;
  update_design_capacity ;;
  update_health ;;
  update_charger ;;
  update_latency start_time now.

End ParseUpdate.

(** The slow check: battery condition and low power mode. *)
Definition slow_update (prof_out lpm_out : string) : M unit :=
  let m := search condition_word prof_out in
  match m with
  | Some w => modify (set_condition w)
  | None => ret tt
  end ;;
  let lpm_match := search lowpowermode_digit lpm_out in
  modify (set_low_power_mode
            (match lpm_match with
             | Some d => String.eqb d "1"
             | None => false
             end)).

(** The three queries. *)
Definition ioreg_args : list string := ["ioreg"; "-w0"; "-rn"; "AppleSmartBattery"]%list.
Definition profiler_args : list string := ["system_profiler"; "SPPowerDataType"]%list.
Definition pmset_args : list string := ["pmset"; "-g"]%list.

(** What one turn of the loop observes: the four readings of the clock and
    the behaviour of the processes it starts. *)
Record cycle_env : Type := mk_env {
  clock_start : Float64.float;
  clock_parsed : Float64.float;
  clock_check : Float64.float;
  clock_slow : Float64.float;
  subprocess_run : run_request -> proc_result
}.

(** One turn of [while self.running]; the result is the collector's own
    state and the time it then sleeps. *)
Definition run_cycle (env : cycle_env) (c : DataCollector) : M (DataCollector * pynum) :=
  let start_time := clock_start env in
  ioreg_out <- lift (run_command (subprocess_run env) ioreg_args) ;;
  parse_update ioreg_out start_time (clock_parsed env) ;;
  elapsed <- lift (py_sub (PFloat (clock_check env)) (last_slow_check c)) ;;
  c' <- (if py_gt_int elapsed 30 then
           prof_out <- lift (run_command (subprocess_run env) profiler_args) ;;
           lpm_out <- lift (run_command (subprocess_run env) pmset_args) ;;
           slow_update prof_out lpm_out ;;
           ret (mk_DataCollector (running c) (PFloat (clock_slow env)))
         else ret c) ;;
  interval <- get poll_interval ;;
  ret (c', interval).

(** ** The renderer: drawing helpers and the key commands

    Text sent to the screen is a list of code points ([len] counts code
    points); the glyph literals are the ones of the source file, character
    by character.  A window is the list of the [addstr] calls made on it. *)

Definition ustr : Type := list N.



(** [curses.color_pair(n)], possibly or-ed with [curses.A_BOLD]. *)
Record attr : Type := mk_attr { color_pair : Z; a_bold : bool }.

(** [win.addstr(y, x, text[, a])] and [win.addstr(text[, a])]. *)
Inductive draw_op : Type :=
| AddStrAt (y x : Z) (text : ustr) (a : option attr)
| AddStr (text : ustr) (a : option attr).

(** What drawing code can raise: an exception of the arithmetic or of a
    conversion, or [IndexError]. *)
Inductive draw_exn : Type :=
| Raised (e : exn)
| IndexError.

Inductive attempt (A : Type) : Type :=
| Done (a : A)
| Fail (e : draw_exn).
Arguments Done {A} a.
Arguments Fail {A} e.

Definition abind {A B} (o : attempt A) (k : A -> attempt B) : attempt B :=
  match o with
  | Done a => k a
  | Fail e => Fail e
  end.






(** [l[i]], a negative [i] counting from the end. *)
Definition py_getitem {A} (l : list A) (i : Z) : attempt A :=
  let n := Z.of_nat (List.length l) in
  let j := if (i <? 0)%Z then (i + n)%Z else i in
  if ((0 <=? j) && (j <? n))%Z then
    match nth_error l (Z.to_nat j) with
    | Some a => Done a
    | None => Fail IndexError
    end
  else Fail IndexError.




Definition flow_charging : list ustr :=
  [ [226; 353; 161; 32; 226; 8221; 226; 8221; 226; 8211; 182; 226; 8221; 226; 8221; 32]%N;
    [226; 8221; 226; 353; 161; 226; 8221; 226; 8221; 226; 8211; 182; 226; 8221; 226; 8221]%N;
    [226; 8221; 226; 8221; 226; 353; 161; 226; 8221; 226; 8211; 182; 226; 8221; 226; 8221]%N;
    [226; 8221; 226; 8221; 226; 8221; 226; 353; 161; 226; 8211; 182; 226; 8221; 226; 8221]%N;
    [226; 8221; 226; 8221; 226; 8221; 226; 8221; 226; 353; 161; 226; 8221; 226; 8221]%N ].

Definition flow_discharging : list ustr :=
  [ [226; 8221; 226; 8221; 226; 8212; 8364; 226; 8221; 226; 8221; 32; 226; 353; 161]%N;
    [226; 8221; 226; 8221; 226; 8212; 8364; 226; 8221; 226; 8221; 226; 353; 161; 226; 8221]%N;
    [226; 8221; 226; 8221; 226; 8212; 8364; 226; 8221; 226; 353; 161; 226; 8221; 226; 8221]%N;
    [226; 8221; 226; 8221; 226; 8212; 8364; 226; 353; 161; 226; 8221; 226; 8221; 226; 8221]%N;
    [226; 8221; 226; 8221; 226; 353; 161; 226; 8221; 226; 8221; 226; 8221; 226; 8221]%N ].

(** [draw_power_flow(win, y, x, is_charging, frame)] *)
Definition draw_power_flow (y x : Z) (is_charging : bool) (frame : Z)
  : attempt (list draw_op) :=
  let p := if is_charging then flow_charging else flow_discharging in
  let color := if is_charging then 2%Z else 3%Z in
  abind (py_getitem p (frame mod 5)%Z) (fun text =>
  Done [ AddStrAt y x text (Some (mk_attr color true)) ]).










(** The key commands of [main_loop]: [q] stops the collector and leaves
    the loop (the returned flag); [e], [b] and [p] select the poll mode;
    any other value of [getch] does nothing. *)
Definition handle_key (key : Z) (c : DataCollector) : M (DataCollector * bool) :=
  if ((key =? 113) || (key =? 81))%Z then
    ret (mk_DataCollector false (last_slow_check c), true)
  else if ((key =? 101) || (key =? 69))%Z then
    modify (set_mode "ECO") ;; modify (set_poll_interval lit_5_0) ;; ret (c, false)
  else if ((key =? 98) || (key =? 66))%Z then
    modify (set_mode "BALANCED") ;; modify (set_poll_interval lit_2_0) ;; ret (c, false)
  else if ((key =? 112) || (key =? 80))%Z then
    modify (set_mode "PERFORMANCE") ;; modify (set_poll_interval lit_0_5) ;; ret (c, false)
  else ret (c, false).

(** The size test of [main_loop]: below 70 columns or 25 rows only the
    placeholder is drawn. *)
Definition too_small (max_y max_x : Z) : bool := ((max_x <? 70) || (max_y <? 25))%Z.

(** * Vocabulary of the properties *)

(** The snapshot a computation leaves, whether it returns or raises. *)
Definition final {A} (m : M A) (s : PowerData) : PowerData := fst (m s).

(** [m] leaves the attribute [f] as it found it. *)
Definition preserves {A B} (f : PowerData -> B) (m : M A) : Prop :=
  forall s, f (final m s) = f s.

(** The defaults as the specification words them: status strings
    ['Unknown'], numbers [0], mode [BALANCED] with a 2.0 second interval. *)
Definition spec_defaults (s : PowerData) : Prop :=
  (power_source s = "Unknown" /\ charging_status s = "Unknown"
   /\ time_remaining s = "Unknown" /\ condition s = "Unknown"
   /\ serial s = "Unknown")
  /\ (battery_percent s = 0 /\ cycle_count s = 0
      /\ py_eq_int (max_capacity_percent s) 0 = true /\ charger_wattage s = 0
      /\ py_eq_int (temperature s) 0 = true /\ py_eq_int (voltage s) 0 = true
      /\ amperage s = 0 /\ py_eq_int (power_watts s) 0 = true
      /\ py_eq_int (adapter_voltage s) 0 = true /\ adapter_current s = 0
      /\ adapter_watts s = 0 /\ design_capacity s = 0 /\ current_capacity s = 0
      /\ last_update_time s = 0 /\ py_eq_int (poll_latency s) 0 = true)
  /\ mode s = "BALANCED" /\ poll_interval s = lit_2_0.

(** The contract as the specification words it: never an exception, and
    empty text on a non-zero exit, a timeout or a spawn error. *)
Definition spec_run_command (run : run_request -> proc_result)
    (cmd_args : list string) : Prop :=
  exists out, run_command run cmd_args = Ok out
  /\ match run (mk_request cmd_args true true 5 false) with
     | Completed rc stdout _ => if (rc =? 0)%Z then out = stdout else out = ""
     | Failed _ => out = ""
     end.

(** The last [n] elements of a list. *)
Definition lastn {A} (n : nat) (l : list A) : list A :=
  skipn (List.length l - n) l.

(** Every character of [s] is in [\d]. *)
Fixpoint all_digits (s : string) : bool :=
  match s with
  | String c s' => is_digit c && all_digits s'
  | "" => true
  end.

(** [m] never raises. *)
Definition returns {A} (m : M A) : Prop := forall s, exists u a, m s = (u, Ok a).

(** Whatever happens, [m] leaves a snapshot where [Q] holds. *)
Definition ensures {A} (m : M A) (Q : PowerData -> Prop) : Prop :=
  forall s, Q (final m s).

(** The range as the specification words it. *)
Definition spec_percent_in_range (text : string) : Prop :=
  forall c m t0 t1 s,
    search (kv_digits "CurrentCapacity") text = Some c ->
    search (kv_digits "MaxCapacity") text = Some m ->
    0 <= py_int c <= py_int m ->
    0 <= battery_percent (final (parse_update text t0 t1) s) <= 100.

(** Sample registry texts. *)
Definition capacity_text (cur max : string) : string :=
  quoted "CurrentCapacity" ++ " = " ++ cur ++ newline
  ++ quoted "MaxCapacity" ++ " = " ++ max.

Definition time_text (mins : string) : string :=
  quoted "TimeRemaining" ++ " = " ++ mins.

Definition amperage_text (raw : string) : string :=
  quoted "InstantAmperage" ++ " = " ++ raw.

(** A clock reading of 0.0 seconds. *)
Definition zero_clock : Float64.float := S754_zero false.

(** A history of capacity 100 within its capacity. *)
Definition bounded (d : deque) : Prop :=
  maxlen d = 100%nat /\ (List.length (items d) <= 100)%nat.

(** Both histories have capacity 100 and hold at most 100 samples. *)
Definition history_ok (s : PowerData) : Prop :=
  bounded (power_history s) /\ bounded (temp_history s).

Definition temperature_text (raw : string) : string :=
  quoted "Temperature" ++ " = " ++ raw.

(** [x] is not NaN and carries the sign [s]. *)
Definition has_sign (s : bool) (x : Float64.float) : Prop :=
  match x with
  | S754_nan => False
  | S754_zero s' | S754_infinity s' | S754_finite s' _ _ => s' = s
  end.

(** A voltage the collector can have stored: the initial [0] or a finite
    float that is not negative. *)
Definition voltage_ok (v : pynum) : Prop :=
  match v with
  | PInt z => 0 <= z
  | PFloat x => Float64.is_finite x = true /\ has_sign false x
  end.


Definition six : Float64.float := S754_finite false 6755399441055744 (-50).

Definition power_text (millivolts milliamps : string) : string :=
  quoted "Voltage" ++ " = " ++ millivolts ++ newline
  ++ quoted "InstantAmperage" ++ " = " ++ milliamps.

(** From a snapshot where [P] holds, [m] leaves one where [Q] holds,
    whether it returns or raises. *)
Definition hoare {A} (P : PowerData -> Prop) (m : M A) (Q : PowerData -> Prop) : Prop :=
  forall s, P s -> Q (final m s).

(** [m] never raises [ZeroDivisionError]. *)
Definition no_zero_division {A} (m : M A) : Prop :=
  forall s, snd (m s) <> Raise ZeroDivisionError.

Definition health_text (design raw : string) : string :=
  quoted "DesignCapacity" ++ " = " ++ design ++ newline
  ++ quoted "AppleRawMaxCapacity" ++ " = " ++ raw.

Definition ninety : Float64.float := S754_finite false 6333186975989760 (-46).

(** A turn of the loop whose three queries complete with the given
    outputs, 1000 seconds after the last slow check. *)
Definition env_of (ioreg_out prof_out lpm_out : string) : cycle_env :=
  let t := Float64.of_Z 1000 in
  mk_env t t t t
    (fun r =>
       if list_eq_dec string_dec (req_args r) ioreg_args then Completed 0 ioreg_out ""
       else if list_eq_dec string_dec (req_args r) profiler_args then Completed 0 prof_out ""
       else Completed 0 lpm_out "").

(** The retention as the specification words it, for the two flags. *)
Definition spec_flags_retained (env : cycle_env) (c : DataCollector) (s : PowerData) : Prop :=
  forall text lpm,
    run_command (subprocess_run env) ioreg_args = Ok text ->
    run_command (subprocess_run env) pmset_args = Ok lpm ->
    (contains (quoted "ExternalConnected" ++ " = Yes") text = false ->
     contains (quoted "AppleRawExternalConnected" ++ " = Yes") text = false ->
     charger_connected (final (run_cycle env c) s) = charger_connected s)
    /\ (search lowpowermode_digit lpm = None ->
        low_power_mode (final (run_cycle env c) s) = low_power_mode s).

(** Idempotence as the specification words it: the second run leaves every
    attribute of the snapshot as the first run left it. *)
Definition spec_idempotent (text : string) (a b : Float64.float) (s : PowerData) : Prop :=
  forall s1 s2,
    parse_update text a b s = (s1, Ok tt) ->
    parse_update text a b s1 = (s2, Ok tt) ->
    s2 = s1.

(** The formatting as the specification words it: whatever minute value
    the text carries is rendered. *)
Definition spec_time_remaining (text : string) : Prop :=
  forall g t0 t1 s,
    search (kv_digits "TimeRemaining") text = Some g ->
    let s' := final (parse_update text t0 t1) s in
    (py_int g = 65535 -> time_remaining s' = "Calculating...")
    /\ (py_int g <> 65535 ->
        time_remaining s' =
        py_str (py_int g / 60) ++ "h " ++ py_str (py_int g mod 60) ++ "m").

(** A run of [n] digits 1. *)
Definition ones (n : nat) : string := string_of_list_ascii (repeat "1"%char n).

(** [int] converts the group of digits [g]: it is within the limit. *)
Definition convertible (g : string) : Prop :=
  (String.length g <= int_max_str_digits)%nat.

(** The conversion of the battery percent does not raise on [text]. *)
Definition percent_convertible (text : string) : Prop :=
  forall c m,
    search (kv_digits "CurrentCapacity") text = Some c ->
    search (kv_digits "MaxCapacity") text = Some m ->
    convertible c.

(** ** Vocabulary of the further properties *)

(** Every exception [m] can raise satisfies [P]. *)
Definition raises_within {A} (P : exn -> Prop) (m : M A) : Prop :=
  forall s e, snd (m s) = Raise e -> P e.

(** The request [run_command] makes for an argument list. *)
Definition request_for (cmd_args : list string) : run_request :=
  mk_request cmd_args true true 5 false.

(** A decimal string of [n] zeros after a one: [10^n] as the registry
    would print it. *)
Definition one_and_zeros (n : nat) : string :=
  String "1" (string_of_list_ascii (repeat "0"%char n)).

(** The counters read with [\d+] are not negative. *)
Definition counters_ok (s : PowerData) : Prop :=
  0 <= battery_percent s /\ 0 <= cycle_count s /\ 0 <= design_capacity s
  /\ 0 <= current_capacity s /\ 0 <= adapter_current s /\ 0 <= charger_wattage s.

(** A sample of the power history: a float, not NaN, not negative. *)
Definition sample_ok (x : pynum) : Prop :=
  exists f, x = PFloat f /\ has_sign false f.

(** The stored voltage and every stored sample are as the collector makes
    them. *)
Definition samples_ok (s : PowerData) : Prop :=
  voltage_ok (voltage s) /\ Forall sample_ok (items (power_history s)).

(** The poll mode and the poll interval go together. *)
Definition mode_ok (s : PowerData) : Prop :=
  (mode s = "PERFORMANCE" /\ poll_interval s = lit_0_5)
  \/ (mode s = "BALANCED" /\ poll_interval s = lit_2_0)
  \/ (mode s = "ECO" /\ poll_interval s = lit_5_0).

(** Every character of [s] is in the class [f]. *)
Fixpoint all_in (f : ascii -> bool) (s : string) : bool :=
  match s with
  | String c s' => f c && all_in f s'
  | "" => true
  end.

(** [s] does not start with a character of the class [f]: a greedy
    repetition of [f] stops before it. *)
Definition stops (f : ascii -> bool) (s : string) : bool :=
  match s with
  | String c _ => negb (f c)
  | "" => true
  end.

(** No character of [s] is a double quote. *)
Fixpoint no_dquote (s : string) : bool :=
  match s with
  | String c s' => negb (Ascii.eqb c dquote) && no_dquote s'
  | "" => true
  end.









(** * Properties *)

(** ** Reasoning about computations *)

Lemma bind_ok_inv {A B} (m : M A) (k : A -> M B) s t b :
  bind m k s = (t, Ok b) ->
  exists u a, m s = (u, Ok a) /\ k a u = (t, Ok b).
Proof.
  unfold bind. destruct (m s) as [u [a | e]]; intros H.
  - exists u, a. split; [reflexivity | exact H].
  - discriminate H.
Qed.

Lemma bind_ok_intro {A B} (m : M A) (k : A -> M B) s u a :
  m s = (u, Ok a) -> bind m k s = k a u.
Proof. unfold bind. intros ->. reflexivity. Qed.

Lemma final_bind {A B} (m : M A) (k : A -> M B) s :
  final (bind m k) s =
  match m s with
  | (u, Ok a) => final (k a) u
  | (u, Raise _) => u
  end.
Proof. unfold final, bind. destruct (m s) as [u [a | e]]; reflexivity. Qed.

Lemma preserves_bind {A B C} (f : PowerData -> C) (m : M A) (k : A -> M B) :
  preserves f m -> (forall a, preserves f (k a)) -> preserves f (bind m k).
Proof.
  intros Hm Hk s. rewrite final_bind. specialize (Hm s). unfold final in Hm.
  destruct (m s) as [u [a | e]]; simpl in Hm.
  - rewrite Hk. exact Hm.
  - exact Hm.
Qed.

Lemma preserves_ret {A C} (f : PowerData -> C) (a : A) : preserves f (ret a).
Proof. intros s. reflexivity. Qed.

Lemma preserves_get {A C} (f : PowerData -> C) (g : PowerData -> A) :
  preserves f (get g).
Proof. intros s. reflexivity. Qed.

Lemma preserves_lift {A C} (f : PowerData -> C) (o : outcome A) :
  preserves f (lift o).
Proof. intros s. reflexivity. Qed.

Lemma preserves_modify {C} (f : PowerData -> C) (g : PowerData -> PowerData) :
  (forall s, f (g s) = f s) -> preserves f (modify g).
Proof. intros H s. apply H. Qed.

(** The blocks of the cycle, for unfolding. *)
Create HintDb blocks.
#[local] Hint Unfold update_source update_percent update_charging_status
  update_time_remaining update_temperature update_voltage update_amperage
  update_power update_cycle_count update_design_capacity update_health
  update_charger update_latency slow_update : blocks.

(** Discharges [preserves f m] when no assignment in [m] writes [f]; stops
    at the assignments that do. *)
Ltac frame_step :=
  first
    [ apply preserves_ret
    | apply preserves_get
    | apply preserves_lift
    | apply preserves_modify; intros; reflexivity
    | apply preserves_bind; [ | intros ]
    | match goal with
      | |- preserves _ (match ?x with _ => _ end) => destruct x
      end ].

Ltac frame := autounfold with blocks; repeat frame_step.

(** Runs a hypothesis [H : (m ;; k) s = (t, Ok b)] one block further. *)
Ltac step H u Hu :=
  apply bind_ok_inv in H; destruct H as (u & [] & Hu & H).

Lemma kept {A B} (f : PowerData -> B) (m : M A) s t o :
  preserves f m -> m s = (t, o) -> f t = f s.
Proof. intros P H. specialize (P s). unfold final in P. rewrite H in P. exact P. Qed.

(** ** The constructor *)

(** C9, as stated, fails: the condition string starts as ['Checking...']
    and the health percent as [100]. *)
Lemma init_defaults_counterexample :
  ~ spec_defaults PowerData_init
  /\ condition PowerData_init = "Checking..."
  /\ max_capacity_percent PowerData_init = PInt 100.
Proof.
  split; [ | split; reflexivity ].
  intros (Hs & _). destruct Hs as (_ & _ & _ & Hc & _). discriminate Hc.
Qed.

(** C9 (amended): the constructor sets the four strings [power_source],
    [charging_status], [time_remaining] and [serial] to ['Unknown'] and
    [condition] to ['Checking...']; every number to [0] except
    [max_capacity_percent], which starts at [100]; the three flags to
    [False]; both histories to empty deques of capacity 100; the mode to
    [BALANCED] with a poll interval equal to the binary64 value 2. *)
Theorem init_defaults :
  (power_source PowerData_init = "Unknown"
   /\ charging_status PowerData_init = "Unknown"
   /\ time_remaining PowerData_init = "Unknown"
   /\ serial PowerData_init = "Unknown"
   /\ condition PowerData_init = "Checking...")
  /\ (battery_percent PowerData_init = 0 /\ cycle_count PowerData_init = 0
      /\ charger_wattage PowerData_init = 0
      /\ temperature PowerData_init = PInt 0 /\ voltage PowerData_init = PInt 0
      /\ amperage PowerData_init = 0 /\ power_watts PowerData_init = PInt 0
      /\ adapter_voltage PowerData_init = PInt 0
      /\ adapter_current PowerData_init = 0 /\ adapter_watts PowerData_init = 0
      /\ design_capacity PowerData_init = 0 /\ current_capacity PowerData_init = 0
      /\ last_update_time PowerData_init = 0
      /\ poll_latency PowerData_init = PInt 0
      /\ max_capacity_percent PowerData_init = PInt 100)
  /\ (charger_connected PowerData_init = false
      /\ fully_charged PowerData_init = false
      /\ low_power_mode PowerData_init = false)
  /\ (power_history PowerData_init = mk_deque 100 []
      /\ temp_history PowerData_init = mk_deque 100 [])
  /\ mode PowerData_init = "BALANCED"
  /\ poll_interval PowerData_init = PFloat (S754_finite false 4503599627370496 (-51))
  /\ Float64.compare_Z (S754_finite false 4503599627370496 (-51)) 2 = Some Eq.
Proof. repeat split. Qed.

(** ** The telemetry source adapter *)

(** C4, as stated, fails: a child that exits with code 1 after printing
    still has its output returned. *)
Lemma run_command_counterexample :
  let run := fun _ : run_request => Completed 1 "partial" "" in
  run_command run ioreg_args = Ok "partial"
  /\ ~ spec_run_command run ioreg_args.
Proof.
  split; [reflexivity | ].
  intros (out & H & Hout). cbv in H. cbv in Hout. congruence.
Qed.

(** C4 (amended): for every argument list, [run_command] hands
    [subprocess.run] that list with a 5 second timeout and no shell;
    it returns the captured standard output whenever the child completes,
    whatever its exit code, and the empty text whenever [subprocess.run]
    raises an [Exception] (timeout, spawn error, undecodable output); it
    raises nothing that is an [Exception]. *)
Theorem run_command_contract (run : run_request -> proc_result) (cmd_args : list string) :
  let request := mk_request cmd_args true true 5 false in
  (forall rc out err,
      run request = Completed rc out err -> run_command run cmd_args = Ok out)
  /\ (forall e,
        run request = Failed e -> is_Exception e = true ->
        run_command run cmd_args = Ok "")
  /\ (is_Exception TimeoutExpired = true /\ is_Exception OSError = true
      /\ is_Exception UnicodeDecodeError = true)
  /\ (forall e, run_command run cmd_args = Raise e -> is_Exception e = false).
Proof.
  intros request. subst request. unfold run_command.
  split; [ | split; [ | split ] ].
  - intros rc out err ->. reflexivity.
  - intros e -> ->. reflexivity.
  - repeat split.
  - intros e. destruct (run _) as [rc out err | e'].
    + discriminate.
    + destruct (is_Exception e') eqn:E; [discriminate | ].
      intros [= <-]. exact E.
Qed.

Lemma run_command_contract_witness :
  run_command (fun _ => Completed 1 "partial" "") ioreg_args = Ok "partial"
  /\ run_command (fun _ => Failed TimeoutExpired) ioreg_args = Ok "".
Proof.
  split.
  - exact (proj1 (run_command_contract (fun _ => Completed 1 "partial" "") ioreg_args)
             1 "partial" "" eq_refl).
  - exact (proj1 (proj2 (run_command_contract (fun _ => Failed TimeoutExpired) ioreg_args))
             TimeoutExpired eq_refl eq_refl).
Defined.

(** ** Bounded histories *)

Lemma lastn_app_lastn {A} (n : nat) (l r : list A) :
  lastn n (lastn n l ++ r) = lastn n (l ++ r).
Proof.
  unfold lastn.
  destruct (Nat.le_gt_cases (List.length l) n) as [L | L].
  - replace (List.length l - n)%nat with 0%nat by lia. reflexivity.
  - set (k := (List.length l - n)%nat).
    assert (Hs : List.length (skipn k l) = n) by (rewrite length_skipn; lia).
    assert (Hf : List.length (firstn k l) = k) by (rewrite length_firstn; lia).
    assert (E : (l ++ r)%list = (firstn k l ++ (skipn k l ++ r))%list)
      by (rewrite app_assoc, firstn_skipn; reflexivity).
    rewrite !length_app, Hs.
    replace (List.length l + List.length r - n)%nat with (k + List.length r)%nat by lia.
    replace (n + List.length r - n)%nat with (List.length r) by lia.
    rewrite E, (skipn_app (k + List.length r)), Hf.
    rewrite (skipn_all2 (firstn k l)) by lia.
    replace (k + List.length r - k)%nat with (List.length r) by lia.
    reflexivity.
Qed.

Lemma deque_append_items (d : deque) (x : pynum) :
  (List.length (items d) <= maxlen d)%nat ->
  items (deque_append d x) = lastn (maxlen d) (items d ++ [x]).
Proof.
  intros H. unfold deque_append, lastn. cbn [items maxlen].
  rewrite length_app. cbn [List.length].
  destruct (Nat.ltb_spec (maxlen d) (List.length (items d) + 1)) as [L | L].
  - replace (List.length (items d) + 1 - maxlen d)%nat with 1%nat by lia.
    reflexivity.
  - replace (List.length (items d) + 1 - maxlen d)%nat with 0%nat by lia.
    reflexivity.
Qed.

Lemma lastn_length {A} (n : nat) (l : list A) :
  (List.length (lastn n l) <= n)%nat.
Proof. unfold lastn. rewrite length_skipn. lia. Qed.

Lemma deque_append_bound (d : deque) (x : pynum) :
  (List.length (items d) <= maxlen d)%nat ->
  (List.length (items (deque_append d x)) <= maxlen (deque_append d x))%nat.
Proof.
  intros H. rewrite deque_append_items by exact H. apply lastn_length.
Qed.

Lemma deque_fold (xs : list pynum) :
  forall d, (List.length (items d) <= maxlen d)%nat ->
  maxlen (fold_left deque_append xs d) = maxlen d
  /\ items (fold_left deque_append xs d) = lastn (maxlen d) (items d ++ xs).
Proof.
  induction xs as [ | x xs IH]; intros d H; cbn [fold_left].
  - split; [reflexivity | ]. rewrite app_nil_r. unfold lastn.
    replace (List.length (items d) - maxlen d)%nat with 0%nat by lia. reflexivity.
  - destruct (IH (deque_append d x) (deque_append_bound d x H)) as [Hm Hi].
    split; [exact Hm | ]. rewrite Hi, deque_append_items by exact H.
    cbn [deque_append maxlen]. rewrite lastn_app_lastn, <- app_assoc. reflexivity.
Qed.

(** ** What the captured groups are *)

Lemma search_some {A} (m : string -> option A) (s : string) (a : A) :
  search m s = Some a -> exists t, m t = Some a.
Proof.
  induction s as [ | c s IH]; cbn [search].
  - destruct (m "") eqn:E; [intros [= ->]; eauto | discriminate].
  - destruct (m (String c s)) eqn:E; [intros [= ->]; eauto | exact IH].
Qed.

Lemma span_all_digits (s : string) : all_digits (fst (span is_digit s)) = true.
Proof.
  induction s as [ | c s IH]; cbn [span]; [reflexivity | ].
  destruct (is_digit c) eqn:D; [ | reflexivity ].
  destruct (span is_digit s) as [a r]. cbn [fst all_digits] in *.
  rewrite D, IH. reflexivity.
Qed.

Lemma many1_all_digits (s ds r : string) :
  many1 is_digit s = Some (ds, r) -> all_digits ds = true.
Proof.
  unfold many1. pose proof (span_all_digits s) as H.
  destruct (span is_digit s) as [a b]. cbn [fst] in H.
  destruct a; [discriminate | ]. intros [= <- <-]. exact H.
Qed.

Lemma kv_digits_all_digits (key s ds : string) :
  search (kv_digits key) s = Some ds -> all_digits ds = true.
Proof.
  intros H. apply search_some in H. destruct H as (t & H).
  unfold kv_digits, and_then in H.
  destruct (key_eq key t) as [s1 | ]; [ | discriminate ].
  destruct (many1 is_digit s1) as [[a r] | ] eqn:E; [ | discriminate ].
  injection H as <-. eapply many1_all_digits. exact E.
Qed.

Lemma is_digit_value (c : ascii) :
  is_digit c = true -> 0 <= Z.of_N (N_of_ascii c) - 48 <= 9.
Proof.
  unfold is_digit, between. rewrite andb_true_iff, !N.leb_le. lia.
Qed.

Lemma digits_value_nonneg (s : string) :
  forall acc, 0 <= acc -> all_digits s = true -> 0 <= digits_value acc s.
Proof.
  induction s as [ | c s IH]; intros acc Hacc H; cbn [digits_value]; [exact Hacc | ].
  cbn [all_digits] in H. apply andb_true_iff in H. destruct H as [Hc Hs].
  apply IH; [ | exact Hs]. apply is_digit_value in Hc. lia.
Qed.

Lemma py_int_digits (ds : string) :
  all_digits ds = true -> py_int ds = digits_value 0 ds /\ 0 <= py_int ds.
Proof.
  intros H.
  assert (E : py_int ds = digits_value 0 ds).
  { destruct ds as [ | c r]; [reflexivity | ].
    cbn [all_digits] in H. apply andb_true_iff in H. destruct H as [Hc _].
    unfold py_int.
    destruct c as [[] [] [] [] [] [] [] []]; try reflexivity; discriminate Hc. }
  split; [exact E | ]. rewrite E. apply digits_value_nonneg; [lia | exact H].
Qed.

Lemma py_int_str_ok (g : string) :
  all_digits g = true -> convertible g -> py_int_str g = Ok (py_int g).
Proof.
  intros D L. unfold py_int_str.
  assert (E : match g with
              | String "-" ds => ds
              | _ => g
              end = g).
  { destruct g as [ | c r]; [reflexivity | ].
    cbn [all_digits] in D. apply andb_true_iff in D. destruct D as [Hc _].
    destruct c as [[] [] [] [] [] [] [] []]; try reflexivity; discriminate Hc. }
  rewrite E. unfold convertible in L.
  destruct (Nat.ltb_spec int_max_str_digits (String.length g)); [lia | reflexivity].
Qed.

Lemma py_int_str_inv (g : string) (n : Z) : py_int_str g = Ok n -> n = py_int g.
Proof.
  unfold py_int_str. destruct (_ <? _)%nat; [discriminate | ].
  intros [= <-]. reflexivity.
Qed.

Lemma py_int_str_raises (g : string) (e : exn) :
  py_int_str g = Raise e -> e = ValueError.
Proof.
  unfold py_int_str. destruct (_ <? _)%nat; [ | discriminate ].
  intros [= <-]. reflexivity.
Qed.

Lemma py_int_str_convertible (g : string) (n : Z) :
  all_digits g = true -> py_int_str g = Ok n -> convertible g.
Proof.
  intros D. unfold py_int_str, convertible.
  assert (E : match g with
              | String "-" ds => ds
              | _ => g
              end = g).
  { destruct g as [ | c r]; [reflexivity | ].
    cbn [all_digits] in D. apply andb_true_iff in D. destruct D as [Hc _].
    destruct c as [[] [] [] [] [] [] [] []]; try reflexivity; discriminate Hc. }
  rewrite E.
  destruct (Nat.ltb_spec int_max_str_digits (String.length g)); [discriminate | ].
  intros _. assumption.
Qed.

(** ** Blocks that always return *)

Lemma ensures_bind_keep {A B} (m : M A) (k : A -> M B) (Q : PowerData -> Prop) :
  ensures m Q -> (forall a s, Q s -> Q (final (k a) s)) -> ensures (bind m k) Q.
Proof.
  intros Hm Hk s. rewrite final_bind. specialize (Hm s). unfold final in Hm.
  destruct (m s) as [u [a | e]]; cbn [fst] in Hm; auto.
Qed.

Lemma ensures_bind_skip {A B} (m : M A) (k : A -> M B) (Q : PowerData -> Prop) :
  returns m -> (forall a, ensures (k a) Q) -> ensures (bind m k) Q.
Proof.
  intros Hm Hk s. rewrite final_bind. destruct (Hm s) as (u & a & ->). apply Hk.
Qed.

Lemma keep_eq {A B} (f : PowerData -> B) (m : M A) (v : B) s :
  preserves f m -> f s = v -> f (final m s) = v.
Proof. intros P <-. apply P. Qed.

Lemma returns_bind {A B} (m : M A) (k : A -> M B) :
  returns m -> (forall a, returns (k a)) -> returns (bind m k).
Proof.
  intros Hm Hk s. destruct (Hm s) as (u & a & E). destruct (Hk a u) as (t & b & E').
  exists t, b. unfold bind. rewrite E. exact E'.
Qed.

Lemma returns_modify g : returns (modify g).
Proof. intros s. eexists _, _. reflexivity. Qed.

Lemma returns_ret {A} (a : A) : returns (ret a).
Proof. intros s. eexists _, _. reflexivity. Qed.

Lemma returns_get {A} (f : PowerData -> A) : returns (get f).
Proof. intros s. eexists _, _. reflexivity. Qed.

Ltac total_step :=
  first
    [ apply returns_modify
    | apply returns_ret
    | apply returns_get
    | apply returns_bind; [ | intros ]
    | match goal with
      | |- returns (match ?x with _ => _ end) => destruct x
      end ].

Ltac total := autounfold with blocks; repeat total_step.

Lemma returns_update_source t : returns (update_source t).
Proof. total. Qed.

Lemma returns_lift_ok {A} (a : A) : returns (lift (Ok a)).
Proof. intros s. eexists _, _. reflexivity. Qed.

Lemma returns_update_percent t : percent_convertible t -> returns (update_percent t).
Proof.
  intros H. unfold update_percent.
  destruct (search (kv_digits "CurrentCapacity") t) as [c | ] eqn:Hc; [ | total ].
  destruct (search (kv_digits "MaxCapacity") t) as [m | ] eqn:Hm; [ | total ].
  rewrite (py_int_str_ok c (kv_digits_all_digits _ _ _ Hc) (H c m Hc Hm)).
  apply returns_bind; [apply returns_lift_ok | intros n; total].
Qed.

Lemma returns_update_charging_status t : returns (update_charging_status t).
Proof. total. Qed.


(** ** Battery percent *)

(** C2, as stated, fails: with raw capacities 4500 of 5000 the stored
    percent is 4500. *)
Lemma battery_percent_counterexample :
  battery_percent
    (final (parse_update (capacity_text "4500" "5000") (S754_zero false) (S754_zero false))
       PowerData_init) = 4500
  /\ ~ spec_percent_in_range (capacity_text "4500" "5000").
Proof.
  split; [vm_compute; reflexivity | ].
  intros H.
  specialize (H "4500" "5000" (S754_zero false) (S754_zero false) PowerData_init
                eq_refl eq_refl).
  vm_compute in H. destruct H as [_ H]; [split; discriminate | ]. apply H. reflexivity.
Qed.

Lemma battery_percent_stored (text : string) (t0 t1 : Float64.float) (c m : string) :
  search (kv_digits "CurrentCapacity") text = Some c ->
  search (kv_digits "MaxCapacity") text = Some m ->
  convertible c ->
  ensures (parse_update text t0 t1) (fun s' => battery_percent s' = py_int c).
Proof.
  intros Hc Hm L. unfold parse_update.
  apply ensures_bind_skip; [apply returns_update_source | intros _].
  apply ensures_bind_keep.
  - intros s. unfold update_percent. rewrite Hc, Hm.
    rewrite (py_int_str_ok c (kv_digits_all_digits _ _ _ Hc) L). reflexivity.
  - intros _ s Hs. apply keep_eq; [frame | exact Hs].
Qed.

(** Without the bound on the digits the percent is not stored: on a
    [CurrentCapacity] of 4301 digits the conversion raises [ValueError] and
    the update stops there. *)
Lemma battery_percent_over_limit :
  let text := capacity_text (ones 4301) "100" in
  let r := parse_update text zero_clock zero_clock PowerData_init in
  snd r = Raise ValueError /\ battery_percent (fst r) = 0.
Proof. vm_compute. split; reflexivity. Qed.

(** C2 (amended): when both [CurrentCapacity] and [MaxCapacity] are
    present and the [CurrentCapacity] value has at most 4300 digits (so
    that [int] converts it), the battery percent after the update, whether
    the update then completes or not, is the raw [CurrentCapacity] value
    itself ([MaxCapacity] must be present but is not a divisor); it is
    never negative, and it lies in [0, 100] whenever
    [current <= max <= 100]. *)
Theorem battery_percent_range (text : string) (t0 t1 : Float64.float)
    (s : PowerData) (c m : string) :
  search (kv_digits "CurrentCapacity") text = Some c ->
  search (kv_digits "MaxCapacity") text = Some m ->
  convertible c ->
  let s' := final (parse_update text t0 t1) s in
  battery_percent s' = py_int c
  /\ 0 <= battery_percent s'
  /\ (py_int c <= py_int m -> py_int m <= 100 -> 0 <= battery_percent s' <= 100).
Proof.
  intros Hc Hm L s'. subst s'.
  rewrite (battery_percent_stored text t0 t1 c m Hc Hm L s).
  pose proof (py_int_digits c (kv_digits_all_digits _ _ _ Hc)) as [_ Hp].
  repeat split; try exact Hp; lia.
Qed.

Lemma battery_percent_range_witness :
  let text := capacity_text "87" "100" in
  let s' := final (parse_update text (S754_zero false) (S754_zero false)) PowerData_init in
  battery_percent s' = 87 /\ 0 <= battery_percent s'
  /\ (87 <= 100 -> 100 <= 100 -> 0 <= battery_percent s' <= 100).
Proof.
  apply (battery_percent_range (capacity_text "87" "100") (S754_zero false)
           (S754_zero false) PowerData_init "87" "100" eq_refl eq_refl).
  unfold convertible. apply Nat.leb_le. vm_compute. reflexivity.
Defined.

(** ** Time remaining *)

Lemma time_remaining_stored (text : string) (t0 t1 : Float64.float) (g : string) :
  search (kv_digits "TimeRemaining") text = Some g ->
  convertible g -> percent_convertible text ->
  ensures (parse_update text t0 t1)
    (fun s' => time_remaining s' =
               if (py_int g =? 65535)%Z then "Calculating..."
               else py_str (py_int g / 60) ++ "h " ++ py_str (py_int g mod 60) ++ "m").
Proof.
  intros Hg L P. unfold parse_update.
  apply ensures_bind_skip; [apply returns_update_source | intros _].
  apply ensures_bind_skip; [apply returns_update_percent, P | intros _].
  apply ensures_bind_skip; [apply returns_update_charging_status | intros _].
  apply ensures_bind_keep.
  - intros s. unfold update_time_remaining. rewrite Hg.
    rewrite (py_int_str_ok g (kv_digits_all_digits _ _ _ Hg) L).
    unfold final, bind, lift. destruct (py_int g =? 65535)%Z; reflexivity.
  - intros _ s Hs. apply keep_eq; [frame | exact Hs].
Qed.

Lemma no_capacity_convertible (text : string) :
  search (kv_digits "CurrentCapacity") text = None -> percent_convertible text.
Proof. intros H c m Hc. congruence. Qed.

(** C6, as stated, fails: a minute value of 4301 digits is not rendered;
    its conversion raises [ValueError] and the string stays as it was. *)
Lemma time_remaining_counterexample :
  let text := time_text (ones 4301) in
  let r := parse_update text zero_clock zero_clock PowerData_init in
  search (kv_digits "TimeRemaining") text = Some (ones 4301)
  /\ snd r = Raise ValueError
  /\ time_remaining (fst r) = "Unknown"
  /\ ~ spec_time_remaining text.
Proof.
  intros text r.
  assert (Hg : search (kv_digits "TimeRemaining") text = Some (ones 4301))
    by (vm_compute; reflexivity).
  assert (Hr : snd r = Raise ValueError) by (vm_compute; reflexivity).
  assert (Ht : time_remaining (fst r) = "Unknown") by (vm_compute; reflexivity).
  split; [exact Hg | ]. split; [exact Hr | ]. split; [exact Ht | ].
  intros H.
  destruct (H (ones 4301) zero_clock zero_clock PowerData_init Hg) as [_ K].
  assert (N : py_int (ones 4301) <> 65535) by (vm_compute; discriminate).
  specialize (K N). cbv zeta in K.
  change (final (parse_update text zero_clock zero_clock) PowerData_init)
    with (fst r) in K.
  rewrite Ht in K.
  assert (D : String.eqb "Unknown"
                (py_str (py_int (ones 4301) / 60) ++ "h "
                 ++ py_str (py_int (ones 4301) mod 60) ++ "m") = false)
    by (vm_compute; reflexivity).
  rewrite <- K, String.eqb_refl in D. discriminate D.
Qed.

(** Nor is it rendered when the conversion of the battery percent raises
    first: the update stops before it reads the minutes. *)
Lemma time_remaining_after_failed_percent :
  let text := capacity_text (ones 4301) "100" ++ newline ++ time_text "125" in
  let r := parse_update text zero_clock zero_clock PowerData_init in
  search (kv_digits "TimeRemaining") text = Some "125"
  /\ snd r = Raise ValueError
  /\ time_remaining (fst r) = "Unknown".
Proof. vm_compute. repeat split. Qed.

(** C6 (amended): when the text carries a [TimeRemaining] value of [m]
    minutes of at most 4300 digits, in an update where the conversion of
    the battery percent does not raise, the update stores
    ['Calculating...'] if [m = 65535] (and so never ['1092h 15m']) and
    otherwise the digits of [m // 60], the letter [h], a space, the digits
    of [m % 60] and the letter [m]; 125 gives ['2h 5m'] and 0 gives
    ['0h 0m']. *)
Theorem time_remaining_format (t0 t1 : Float64.float) (s : PowerData) :
  (forall text g,
      search (kv_digits "TimeRemaining") text = Some g ->
      convertible g -> percent_convertible text ->
      let s' := final (parse_update text t0 t1) s in
      (py_int g = 65535 ->
       time_remaining s' = "Calculating..." /\ time_remaining s' <> "1092h 15m")
      /\ (py_int g <> 65535 ->
          time_remaining s' =
          py_str (py_int g / 60) ++ "h " ++ py_str (py_int g mod 60) ++ "m"))
  /\ time_remaining (final (parse_update (time_text "65535") t0 t1) s) = "Calculating..."
  /\ time_remaining (final (parse_update (time_text "125") t0 t1) s) = "2h 5m"
  /\ time_remaining (final (parse_update (time_text "0") t0 t1) s) = "0h 0m".
Proof.
  assert (L : forall g, (String.length g <=? int_max_str_digits)%nat = true ->
                        convertible g)
    by (intros g Hg; apply Nat.leb_le, Hg).
  split; [ | repeat split ].
  - intros text g Hg Lg P s'. subst s'.
    rewrite (time_remaining_stored text t0 t1 g Hg Lg P s).
    split; intros H.
    + rewrite H. split; [reflexivity | discriminate].
    + apply Z.eqb_neq in H. rewrite H. reflexivity.
  - exact (time_remaining_stored (time_text "65535") t0 t1 "65535" eq_refl
             (L "65535" eq_refl)
             (no_capacity_convertible (time_text "65535") eq_refl) s).
  - exact (time_remaining_stored (time_text "125") t0 t1 "125" eq_refl
             (L "125" eq_refl)
             (no_capacity_convertible (time_text "125") eq_refl) s).
  - exact (time_remaining_stored (time_text "0") t0 t1 "0" eq_refl
             (L "0" eq_refl)
             (no_capacity_convertible (time_text "0") eq_refl) s).
Qed.

Lemma time_remaining_format_witness :
  let s' := final (parse_update (time_text "125") (S754_zero false) (S754_zero false))
              PowerData_init in
  search (kv_digits "TimeRemaining") (time_text "125") = Some "125"
  /\ (py_int "125" <> 65535 -> time_remaining s' = "2h 5m").
Proof.
  split; [reflexivity | ].
  refine (proj2 (proj1 (time_remaining_format (S754_zero false) (S754_zero false)
                          PowerData_init)
                   (time_text "125") "125" eq_refl _ _)).
  - apply Nat.leb_le. vm_compute. reflexivity.
  - exact (no_capacity_convertible (time_text "125") eq_refl).
Defined.

(** ** Running a completed cycle block by block *)

Lemma lift_ok_inv {A} (o : outcome A) s u a :
  lift o s = (u, Ok a) -> u = s /\ o = Ok a.
Proof. unfold lift. intros [= -> ->]. split; reflexivity. Qed.

Lemma get_ok_inv {A} (f : PowerData -> A) s u a :
  get f s = (u, Ok a) -> u = s /\ a = f s.
Proof. unfold get. intros [= -> ->]. split; reflexivity. Qed.

Lemma modify_ok_inv g s u a :
  modify g s = (u, Ok a) -> u = g s.
Proof. unfold modify. intros [= <-]. reflexivity. Qed.

Lemma ret_ok_inv {A} (x : A) s u a :
  ret x s = (u, Ok a) -> u = s /\ a = x.
Proof. unfold ret. intros [= -> ->]. split; reflexivity. Qed.

(** Decomposes [H : m s = (t, Ok a)] along the binds of [m]. *)
Ltac inv_ok H :=
  lazymatch type of H with
  | bind _ _ _ = (_, Ok _) =>
      let u := fresh "u" in
      let a := fresh "a" in
      let Hu := fresh "Hu" in
      apply bind_ok_inv in H; destruct H as (u & a & Hu & H);
      inv_ok Hu; inv_ok H
  | lift _ _ = (_, Ok _) =>
      apply lift_ok_inv in H;
      let E := fresh "E" in destruct H as [E H]; subst;
      try (let K := fresh "K" in pose proof (py_int_str_inv _ _ H) as K; subst)
  | get _ _ = (_, Ok _) =>
      apply get_ok_inv in H;
      let E := fresh "E" in destruct H as [E H]; subst
  | modify _ _ = (_, Ok _) => apply modify_ok_inv in H; subst
  | ret _ _ = (_, Ok _) =>
      apply ret_ok_inv in H;
      let E := fresh "E" in destruct H as [E H]; subst
  | _ => idtac
  end.

(** Splits a completed [parse_update] into its thirteen blocks, [B], [B0],
    ..., [B10] and the hypothesis itself for the last one. *)
Ltac blocks H :=
  unfold parse_update in H;
  do 12 (let u := fresh "u" in
          let Hu := fresh "B" in
          apply bind_ok_inv in H; destruct H as (u & [] & Hu & H)).

(** Adds [f t = f s] for every block [m s = (t, o)] in the context that
    does not write [f]. *)
Ltac keeps f :=
  repeat match goal with
         | H : ?m ?s = (?t, ?o) |- _ =>
             lazymatch goal with
             | _ : f t = f s |- _ => fail
             | _ => pose proof (kept f m s t o ltac:(frame) H)
             end
         end.

(** ** Amperage *)

(** C3, as stated, fails on its own example: the raw value [2^63 + 100]
    is stored as [100 - 2^63], not as [100 - 2^64]. *)
Lemma amperage_counterexample :
  let s' := final (parse_update (amperage_text "9223372036854775908") zero_clock zero_clock)
              PowerData_init in
  py_int "9223372036854775908" = 2 ^ 63 + 100
  /\ amperage s' = 100 - 2 ^ 63
  /\ amperage s' <> 100 - 2 ^ 64.
Proof. vm_compute. repeat split; discriminate. Qed.

(** The boundary value [2^63] itself is left as it is: the test of the
    source is a strict [amp > 2**63]. *)
Lemma amperage_boundary :
  amperage (final (parse_update (amperage_text "9223372036854775808") zero_clock zero_clock)
              PowerData_init) = 2 ^ 63.
Proof. vm_compute. reflexivity. Qed.

Lemma amperage_stored (text : string) (t0 t1 : Float64.float) (s s' : PowerData) (g : string) :
  a_match text = Some g ->
  parse_update text t0 t1 s = (s', Ok tt) ->
  amperage s' = if (2 ^ 63 <? py_int g)%Z then py_int g - 2 ^ 64 else py_int g.
Proof.
  intros Hg H. blocks H.
  unfold update_amperage in B5. rewrite Hg in B5. inv_ok B5.
  keeps amperage. cbn [amperage set_amperage] in *. congruence.
Qed.

(** C3 (amended): in a completed cycle, a raw amperage [v] above [2^63]
    is stored as [v - 2^64] (so [2^63 + 100] is stored as [100 - 2^63]) and
    a raw amperage below [2^63] is stored as it is (so [500] is stored as
    [500]). *)
Theorem amperage_twos_complement :
  (forall text t0 t1 s s' g,
      a_match text = Some g ->
      parse_update text t0 t1 s = (s', Ok tt) ->
      (2 ^ 63 < py_int g -> amperage s' = py_int g - 2 ^ 64)
      /\ (py_int g < 2 ^ 63 -> amperage s' = py_int g))
  /\ amperage (final (parse_update (amperage_text "9223372036854775908") zero_clock zero_clock)
                 PowerData_init) = 100 - 2 ^ 63
  /\ amperage (final (parse_update (amperage_text "500") zero_clock zero_clock)
                 PowerData_init) = 500.
Proof.
  split; [ | split; vm_compute; reflexivity ].
  intros text t0 t1 s s' g Hg H.
  rewrite (amperage_stored text t0 t1 s s' g Hg H).
  split; intros L.
  - apply Z.ltb_lt in L. rewrite L. reflexivity.
  - destruct (Z.ltb_spec (2 ^ 63) (py_int g)); [lia | reflexivity].
Qed.

Lemma amperage_twos_complement_witness :
  let text := amperage_text "18446744073709551116" in
  let r := parse_update text zero_clock zero_clock PowerData_init in
  a_match text = Some "18446744073709551116"
  /\ snd r = Ok tt
  /\ amperage (fst r) = -500.
Proof.
  split; [reflexivity | split; [reflexivity | ] ].
  exact (proj1 (proj1 amperage_twos_complement
                  (amperage_text "18446744073709551116") zero_clock zero_clock
                  PowerData_init _ "18446744073709551116" eq_refl eq_refl)
           eq_refl).
Defined.

(** ** Histories *)

Lemma bounded_append (d : deque) (x : pynum) : bounded d -> bounded (deque_append d x).
Proof.
  intros [Hm Hl]. split; [exact Hm | ].
  pose proof (deque_append_bound d x) as H. cbn [deque_append maxlen] in H.
  rewrite Hm in H. apply H. exact Hl.
Qed.

Lemma history_ok_init : history_ok PowerData_init.
Proof. repeat split; cbn; lia. Qed.

(** C5, as stated, fails: a completed cycle that reads a temperature
    stores it but leaves the temperature history empty. *)
Lemma temp_history_counterexample :
  let r := parse_update (temperature_text "3031") zero_clock zero_clock PowerData_init in
  snd r = Ok tt
  /\ temperature (fst r) = PFloat (S754_finite false 8444249301319680 (-48))
  /\ Float64.compare_Z (S754_finite false 8444249301319680 (-48)) 30 = Some Eq
  /\ items (temp_history (fst r)) = []
  /\ items (temp_history (fst r)) <> [temperature (fst r)].
Proof. vm_compute. repeat split; discriminate. Qed.

Lemma power_block (s u : PowerData) :
  update_power s = (u, Ok tt) ->
  exists r, expr_power (voltage s) (amperage s) = Ok r
            /\ u = set_power_history (deque_append (power_history s) r)
                     (set_power_watts r s).
Proof.
  intros H. unfold update_power in H. inv_ok H.
  eexists. split; [eassumption | reflexivity].
Qed.

Lemma power_history_appended (text : string) (t0 t1 : Float64.float) (s s' : PowerData) :
  parse_update text t0 t1 s = (s', Ok tt) ->
  power_history s' = deque_append (power_history s) (power_watts s')
  /\ temp_history s' = temp_history s.
Proof.
  intros H. blocks H. destruct (power_block _ _ B6) as (r & _ & ->).
  split.
  - keeps power_history. keeps power_watts.
    cbn [power_history power_watts set_power_history set_power_watts] in *. congruence.
  - keeps temp_history.
    cbn [temp_history set_power_history set_power_watts] in *. congruence.
Qed.

(** C5 (amended): a completed cycle appends the recomputed power draw to
    the power history; each of the two histories keeps at most 100
    samples; and appending 150 samples to the empty history leaves exactly
    the last 100, the 50 oldest evicted. *)
Theorem histories_bounded :
  (forall text t0 t1 s s',
      history_ok s ->
      parse_update text t0 t1 s = (s', Ok tt) ->
      power_history s' = deque_append (power_history s) (power_watts s')
      /\ items (power_history s')
         = lastn 100 (items (power_history s) ++ [power_watts s'])
      /\ history_ok s')
  /\ (forall xs,
        List.length xs = 150%nat ->
        let d := fold_left deque_append xs (power_history PowerData_init) in
        items d = skipn 50 xs /\ List.length (items d) = 100%nat).
Proof.
  split.
  - intros text t0 t1 s s' [[Pm Pl] Ht] H.
    destruct (power_history_appended text t0 t1 s s' H) as [Hp Hq].
    split; [exact Hp | ]. split.
    + rewrite Hp, deque_append_items by lia. rewrite Pm. reflexivity.
    + split.
      * rewrite Hp. apply bounded_append. split; assumption.
      * rewrite Hq. exact Ht.
  - intros xs Hx d. subst d.
    destruct (deque_fold xs (power_history PowerData_init)) as [_ Hi]; [cbn; lia | ].
    rewrite Hi. cbn [power_history PowerData_init items maxlen app]. unfold lastn.
    rewrite Hx. change (150 - 100)%nat with 50%nat.
    split; [reflexivity | ]. rewrite length_skipn. lia.
Qed.

Lemma histories_bounded_witness :
  let r := parse_update (temperature_text "3031") zero_clock zero_clock PowerData_init in
  history_ok PowerData_init
  /\ snd r = Ok tt
  /\ items (power_history (fst r)) = [power_watts (fst r)]
  /\ history_ok (fst r).
Proof.
  pose proof (proj1 histories_bounded (temperature_text "3031") zero_clock zero_clock
                PowerData_init _ history_ok_init eq_refl) as (_ & H & K).
  split; [exact history_ok_init | ].
  split; [reflexivity | ].
  split; [exact H | exact K].
Defined.

(** ** Power draw *)

Lemma power_recomputed (text : string) (t0 t1 : Float64.float) (s s' : PowerData) :
  parse_update text t0 t1 s = (s', Ok tt) ->
  expr_power (voltage s') (amperage s') = Ok (power_watts s').
Proof.
  intros H. blocks H. destruct (power_block _ _ B6) as (r & E & ->).
  keeps voltage. keeps amperage. keeps power_watts.
  cbn [voltage amperage power_watts set_power_history set_power_watts] in *.
  congruence.
Qed.

(** ** Signs of binary64 results *)

Module Sign.
Import Float64.
Local Open Scope Z_scope.

Lemma shr_1_nonneg (mrs : shr_record) : 0 <= shr_m mrs -> 0 <= shr_m (shr_1 mrs).
Proof.
  destruct mrs as [m r t]. cbn [shr_m]. intros H.
  destruct m as [ | [p | p | ] | p ]; cbn; lia.
Qed.

Lemma iter_shr_1_nonneg (p : positive) :
  forall mrs, 0 <= shr_m mrs -> 0 <= shr_m (iter_pos shr_1 p mrs).
Proof.
  induction p as [p IH | p IH | ]; intros mrs H; cbn [iter_pos].
  - apply IH, IH, shr_1_nonneg, H.
  - apply IH, IH, H.
  - apply shr_1_nonneg, H.
Qed.

Lemma shr_nonneg (mrs : shr_record) (e n : Z) :
  0 <= shr_m mrs -> 0 <= shr_m (fst (shr mrs e n)).
Proof.
  intros H. unfold shr. destruct n; cbn [fst]; try exact H.
  apply iter_shr_1_nonneg, H.
Qed.

Lemma shr_fexp_nonneg (m e : Z) (l : location) :
  0 <= m -> 0 <= shr_m (fst (shr_fexp prec emax m e l)).
Proof.
  intros H. unfold shr_fexp. apply shr_nonneg.
  destruct l as [ | [ | | ] ]; exact H.
Qed.

Lemma round_nearest_even_nonneg (m : Z) (l : location) :
  0 <= m -> 0 <= round_nearest_even m l.
Proof.
  intros H. unfold round_nearest_even.
  destruct l as [ | [ | | ] ]; try destruct (Z.even m); lia.
Qed.

Lemma binary_round_aux_sign (s : bool) (m e : Z) (l : location) :
  0 <= m -> has_sign s (binary_round_aux prec emax s m e l).
Proof.
  intros H. unfold binary_round_aux.
  pose proof (shr_fexp_nonneg m e l H) as H1.
  destruct (shr_fexp prec emax m e l) as [mrs' e']. cbn [fst] in H1.
  pose proof (shr_fexp_nonneg _ e' loc_Exact
                (round_nearest_even_nonneg _ (loc_of_shr_record mrs') H1)) as H2.
  destruct (shr_fexp prec emax (round_nearest_even _ _) e' loc_Exact) as [mrs'' e''].
  cbn [fst] in H2.
  destruct (shr_m mrs'') as [ | p | p ].
  - exact eq_refl.
  - destruct (e'' <=? emax - prec); exact eq_refl.
  - lia.
Qed.

Lemma div_core_nonneg (m1 m2 : positive) (e1 e2 : Z) :
  0 <= fst (fst (SFdiv_core_binary prec emax (Zpos m1) e1 (Zpos m2) e2)).
Proof.
  unfold SFdiv_core_binary.
  set (s := _ - _ - _).
  set (m' := match s with Z0 => Zpos m1 | Zpos _ => Z.shiftl (Zpos m1) s | Zneg _ => 0 end).
  assert (Hm : 0 <= m').
  { subst m'. destruct s; try lia. apply Z.shiftl_nonneg. lia. }
  pose proof (Z.div_pos m' (Zpos m2) Hm ltac:(lia)) as Hq.
  unfold Z.div in Hq. destruct (Z.div_eucl m' (Zpos m2)) as [q r].
  cbn [fst] in *. exact Hq.
Qed.

Lemma of_ratio_sign (s : bool) (a : Z) (b : positive) : has_sign s (of_ratio s a b).
Proof.
  unfold of_ratio. destruct a as [ | p | p ]; try exact eq_refl.
  pose proof (div_core_nonneg p b 0 0) as H.
  destruct (SFdiv_core_binary prec emax (Zpos p) 0 (Zpos b) 0) as [[q e] l].
  apply binary_round_aux_sign. exact H.
Qed.

Lemma of_Z_sign (z : Z) : 0 <= z -> has_sign false (of_Z z).
Proof.
  intros H. unfold of_Z, binary_normalize. destruct z as [ | p | p ]; try lia.
  - exact eq_refl.
  - unfold binary_round. destruct (shl_align p 0 _) as [mz ez].
    apply binary_round_aux_sign. lia.
Qed.

Lemma mul_sign (x y : float) :
  is_finite x = true -> is_finite y = true ->
  has_sign false x -> has_sign false y -> has_sign false (mul x y).
Proof.
  destruct x as [sx | sx | | sx mx ex]; destruct y as [sy | sy | | sy my ey];
    cbn; try discriminate; try contradiction; intros _ _ -> ->; try reflexivity.
  apply binary_round_aux_sign. lia.
Qed.

Lemma div_sign (x y : float) :
  has_sign false x -> has_sign false y ->
  is_finite y = true -> is_zero y = false -> has_sign false (div x y).
Proof.
  destruct x as [sx | sx | | sx mx ex]; destruct y as [sy | sy | | sy my ey];
    cbn; try discriminate; try contradiction; intros -> -> _ _; try reflexivity.
  pose proof (div_core_nonneg mx my ex ey) as H.
  destruct (SFdiv_core_binary prec emax (Zpos mx) ex (Zpos my) ey) as [[q e] l].
  apply binary_round_aux_sign. exact H.
Qed.

Lemma round_sign (s : bool) (x : float) (n : nat) :
  has_sign s x -> has_sign s (round_ndigits x n).
Proof.
  destruct x as [sx | sx | | sx mx ex]; cbn [round_ndigits]; try (intros H; exact H).
  intros H. destruct (323 <? Z.of_nat n); [exact H | ].
  cbn in H. subst sx. apply of_ratio_sign.
Qed.

Lemma nonneg_of_sign (x : float) : has_sign false x -> nonneg x = true.
Proof.
  destruct x as [sx | sx | | sx mx ex]; unfold has_sign; try contradiction;
    intros ->; try reflexivity.
  unfold nonneg, compare_Z. destruct ex as [ | p | p ]; try reflexivity.
  assert (H : 0 < Zpos mx * 2 ^ Zpos p)
    by (apply Z.mul_pos_pos; [lia | apply Z.pow_pos_nonneg; lia]).
  apply Z.compare_gt_iff in H. rewrite H. reflexivity.
Qed.

End Sign.

Lemma truediv_nat_sign (n d : Z) (r : pynum) :
  0 <= n -> 0 < d -> py_truediv (PInt n) (PInt d) = Ok r ->
  exists x, r = PFloat x /\ Float64.is_finite x = true /\ has_sign false x.
Proof.
  intros Hn Hd. unfold py_truediv. destruct d as [ | p | p ]; try lia.
  replace (n <? 0)%Z with false by (symmetry; apply Z.ltb_ge; exact Hn).
  cbn [Z.ltb Z.compare xorb].
  destruct (Float64.is_finite _) eqn:F; [ | discriminate ].
  intros [= <-]. eexists. split; [reflexivity | ]. split; [exact F | ].
  apply Sign.of_ratio_sign.
Qed.

Lemma div_1000_sign (x : Float64.float) (r : pynum) :
  has_sign false x -> py_truediv (PFloat x) (PInt 1000) = Ok r ->
  exists y, r = PFloat y /\ has_sign false y.
Proof.
  intros Hx. unfold py_truediv, to_float, obind.
  change (Float64.of_Z 1000) with (S754_finite false 8796093022208000 (-43)).
  cbn [Float64.is_finite Float64.is_zero]. intros [= <-].
  eexists. split; [reflexivity | ].
  apply Sign.div_sign; [exact Hx | exact eq_refl | reflexivity | reflexivity].
Qed.

Lemma expr_millis_ok (n : Z) (v : pynum) :
  0 <= n -> expr_millis n = Ok v -> voltage_ok v.
Proof.
  intros Hn H. unfold expr_millis in H.
  apply truediv_nat_sign in H; [ | exact Hn | lia].
  destruct H as (x & -> & F & S). split; assumption.
Qed.





(** ** Health percent *)

Lemma hoare_bind {A B} (P R Q : PowerData -> Prop) (m : M A) (k : A -> M B) :
  hoare P m R -> (forall a, hoare R (k a) Q) -> (forall s, R s -> Q s) ->
  hoare P (bind m k) Q.
Proof.
  intros Hm Hk Hr s Hs. rewrite final_bind. specialize (Hm s Hs). unfold final in Hm.
  destruct (m s) as [u [a | e]]; cbn [fst] in Hm.
  - apply Hk, Hm.
  - apply Hr, Hm.
Qed.

Lemma hoare_preserves {A B} (f : PowerData -> B) (P : B -> Prop) (m : M A) :
  preserves f m -> hoare (fun s => P (f s)) m (fun s => P (f s)).
Proof. intros H s Hs. rewrite H. exact Hs. Qed.

Lemma nzd_bind {A B} (m : M A) (k : A -> M B) :
  no_zero_division m -> (forall a, no_zero_division (k a)) -> no_zero_division (bind m k).
Proof.
  intros Hm Hk s. unfold bind. specialize (Hm s).
  destruct (m s) as [u [a | e]]; cbn [snd] in *; [apply Hk | ].
  intros [= ->]. apply Hm. reflexivity.
Qed.

Lemma nzd_ret {A} (a : A) : no_zero_division (ret a).
Proof. intros s. discriminate. Qed.

Lemma nzd_get {A} (f : PowerData -> A) : no_zero_division (get f).
Proof. intros s. discriminate. Qed.

Lemma nzd_modify g : no_zero_division (modify g).
Proof. intros s. discriminate. Qed.

Lemma nzd_lift {A} (o : outcome A) :
  o <> Raise ZeroDivisionError -> no_zero_division (lift o).
Proof. intros H s. exact H. Qed.

Lemma to_float_nzd (a : pynum) : to_float a <> Raise ZeroDivisionError.
Proof.
  destruct a as [z | x]; cbn [to_float]; [ | discriminate ].
  destruct (Float64.is_finite _); discriminate.
Qed.

Lemma py_mul_nzd (a b : pynum) : py_mul a b <> Raise ZeroDivisionError.
Proof.
  pose proof (to_float_nzd a) as Ha. pose proof (to_float_nzd b) as Hb.
  destruct a as [x | x], b as [y | y]; cbv beta iota delta [py_mul obind];
    try discriminate;
    repeat match goal with
           | |- context [to_float ?c] => destruct (to_float c) as [? | []]
           end; congruence.
Qed.

Lemma py_sub_nzd (a b : pynum) : py_sub a b <> Raise ZeroDivisionError.
Proof.
  pose proof (to_float_nzd a) as Ha. pose proof (to_float_nzd b) as Hb.
  destruct a as [x | x], b as [y | y]; cbv beta iota delta [py_sub obind];
    try discriminate;
    repeat match goal with
           | |- context [to_float ?c] => destruct (to_float c) as [? | []]
           end; congruence.
Qed.

(** A division whose divisor is a non-zero integer constant. *)
Lemma py_truediv_nzd (a : pynum) (d : Z) :
  Float64.is_finite (Float64.of_Z d) = true ->
  Float64.is_zero (Float64.of_Z d) = false ->
  d <> 0 -> py_truediv a (PInt d) <> Raise ZeroDivisionError.
Proof.
  intros F Zr Hd. pose proof (to_float_nzd a) as Ha.
  destruct a as [x | x]; cbv beta iota zeta delta [py_truediv obind to_float].
  - clear F Zr. destruct d; [contradiction | | ]; destruct (Float64.is_finite _); discriminate.
  - rewrite F, Zr. discriminate.
Qed.

(** The guarded division of the health percent. *)
Lemma expr_health_nzd (c d : Z) : 0 < d -> expr_health c d <> Raise ZeroDivisionError.
Proof.
  intros Hd. unfold expr_health, obind.
  destruct (py_truediv (PInt c) (PInt d)) as [f | e] eqn:E.
  - pose proof (py_mul_nzd f (PInt 100)) as H. destruct (py_mul f (PInt 100)); congruence.
  - unfold py_truediv in E. destruct d; try lia.
    destruct (Float64.is_finite _); congruence.
Qed.

Lemma expr_with_constant_nzd :
  (forall n, expr_temperature n <> Raise ZeroDivisionError)
  /\ (forall n, expr_millis n <> Raise ZeroDivisionError)
  /\ (forall v a, expr_power v a <> Raise ZeroDivisionError)
  /\ (forall a b, expr_latency a b <> Raise ZeroDivisionError).
Proof.
  repeat split; intros.
  - unfold expr_temperature, obind.
    pose proof (py_truediv_nzd (PInt n) 10 eq_refl eq_refl ltac:(lia)) as H.
    destruct (py_truediv (PInt n) (PInt 10)) as [k | e]; [ | exact H].
    pose proof (py_sub_nzd k lit_273_15) as H'.
    destruct (py_sub k lit_273_15); [discriminate | exact H'].
  - apply (py_truediv_nzd (PInt n) 1000 eq_refl eq_refl). lia.
  - unfold expr_power, obind.
    pose proof (py_mul_nzd v (py_abs (PInt a))) as H.
    destruct (py_mul v (py_abs (PInt a))) as [p | e]; [ | exact H].
    pose proof (py_truediv_nzd p 1000 eq_refl eq_refl ltac:(lia)) as H'.
    destruct (py_truediv p (PInt 1000)); [discriminate | exact H'].
  - unfold expr_latency, obind.
    pose proof (py_sub_nzd (PFloat b) (PFloat a)) as H.
    destruct (py_sub (PFloat b) (PFloat a)) as [d | e]; [ | exact H].
    pose proof (py_mul_nzd d (PInt 1000)) as H'.
    destruct (py_mul d (PInt 1000)); [discriminate | exact H'].
Qed.

Lemma py_int_str_nzd (g : string) : py_int_str g <> Raise ZeroDivisionError.
Proof. intros H. apply py_int_str_raises in H. discriminate H. Qed.

Ltac nzd_step :=
  first
    [ apply nzd_ret
    | apply nzd_get
    | apply nzd_modify
    | apply nzd_lift; first [ apply py_int_str_nzd | apply expr_with_constant_nzd ]
    | apply nzd_bind; [ | intros ]
    | match goal with
      | |- no_zero_division (match ?x with _ => _ end) => destruct x
      end ].

Lemma update_health_nzd (text : string) : no_zero_division (update_health text).
Proof.
  unfold update_health.
  destruct (search (kv_digits "AppleRawMaxCapacity") text) as [g | ]; [ | apply nzd_ret ].
  apply nzd_bind; [apply nzd_lift, py_int_str_nzd | intros n].
  intros s. cbv beta iota delta [bind modify get lift].
  destruct (0 <? design_capacity (set_current_capacity n s))%Z eqn:D;
    [ | discriminate ].
  apply Z.ltb_lt in D.
  pose proof (expr_health_nzd
                (current_capacity (set_current_capacity n s))
                (design_capacity (set_current_capacity n s)) D) as H.
  destruct (expr_health _ _) as [r | e]; [discriminate | ].
  cbn [snd]. intros [= ->]. apply H. reflexivity.
Qed.

Lemma parse_update_nzd (text : string) (t0 t1 : Float64.float) :
  no_zero_division (parse_update text t0 t1).
Proof.
  unfold parse_update.
  do 12 (apply nzd_bind;
         [ lazymatch goal with
           | |- no_zero_division (update_health _) => apply update_health_nzd
           | _ => solve [ autounfold with blocks; repeat nzd_step ]
           end
         | intros _ ]).
  autounfold with blocks; repeat nzd_step.
Qed.

Lemma health_miss (text : string) :
  search (kv_digits "AppleRawMaxCapacity") text = None ->
  preserves max_capacity_percent (update_health text).
Proof. intros H. unfold update_health. rewrite H. apply preserves_ret. Qed.

Lemma health_unguarded (text : string) (v : pynum) :
  hoare (fun s => max_capacity_percent s = v) (update_health text)
        (fun s => design_capacity s <= 0 -> max_capacity_percent s = v).
Proof.
  intros s Hs. unfold final, update_health.
  destruct (search (kv_digits "AppleRawMaxCapacity") text) as [g | ];
    [ | intros _; exact Hs ].
  cbv beta iota delta [bind modify get lift].
  destruct (py_int_str g) as [n | e]; [ | intros _; exact Hs ].
  destruct (0 <? design_capacity (set_current_capacity n s))%Z eqn:D.
  - apply Z.ltb_lt in D. cbn [design_capacity set_current_capacity] in D.
    destruct (expr_health _ _) as [r | e]; cbn; intros L; lia.
  - intros _. exact Hs.
Qed.

Lemma health_block (text : string) (s u : PowerData) (g : string) :
  search (kv_digits "AppleRawMaxCapacity") text = Some g ->
  update_health text s = (u, Ok tt) ->
  current_capacity u = py_int g
  /\ design_capacity u = design_capacity s
  /\ (0 < design_capacity u ->
      expr_health (current_capacity u) (design_capacity u) = Ok (max_capacity_percent u)).
Proof.
  intros Hg H. unfold update_health in H. rewrite Hg in H.
  apply bind_ok_inv in H. destruct H as (u0 & n & H0 & H).
  apply lift_ok_inv in H0. destruct H0 as [-> H0].
  apply py_int_str_inv in H0. subst n.
  apply bind_ok_inv in H. destruct H as (u1 & [] & H1 & H).
  apply modify_ok_inv in H1. subst u1.
  apply bind_ok_inv in H. destruct H as (u2 & d & H2 & H).
  apply get_ok_inv in H2. destruct H2 as [-> ->].
  destruct (0 <? design_capacity (set_current_capacity (py_int g) s))%Z eqn:D.
  - inv_ok H. cbn [current_capacity design_capacity max_capacity_percent
                   set_current_capacity set_max_capacity_percent] in *.
    repeat split. intros _. assumption.
  - inv_ok H. apply Z.ltb_ge in D.
    cbn [current_capacity design_capacity set_current_capacity] in *.
    repeat split. intros L. lia.
Qed.

(** C10: the health percent is written only when the raw max-capacity
    counter is present and the stored design capacity is strictly positive:
    without the counter, or with a design capacity that is not positive,
    the previous percent is retained, whether the cycle completes or
    raises; no cycle raises [ZeroDivisionError]; and in a completed cycle
    with the counter present and a positive design capacity the percent is
    [round((current_capacity / design_capacity) * 100, 1)]. *)
Theorem health_percent_guarded (text : string) (t0 t1 : Float64.float) (s : PowerData) :
  let r := parse_update text t0 t1 s in
  (search (kv_digits "AppleRawMaxCapacity") text = None ->
   max_capacity_percent (fst r) = max_capacity_percent s)
  /\ (design_capacity (fst r) <= 0 ->
      max_capacity_percent (fst r) = max_capacity_percent s)
  /\ snd r <> Raise ZeroDivisionError
  /\ (forall g,
        search (kv_digits "AppleRawMaxCapacity") text = Some g ->
        snd r = Ok tt ->
        0 < design_capacity (fst r) ->
        current_capacity (fst r) = py_int g
        /\ expr_health (current_capacity (fst r)) (design_capacity (fst r))
           = Ok (max_capacity_percent (fst r))).
Proof.
  intros r. subst r. split; [ | split; [ | split ] ].
  - intros Hn. revert s.
    change (preserves max_capacity_percent (parse_update text t0 t1)).
    unfold parse_update.
    do 12 (apply preserves_bind;
           [ lazymatch goal with
             | |- preserves _ (update_health _) => apply health_miss; exact Hn
             | _ => solve [ frame ]
             end
           | intros _ ]).
    frame.
  - revert s.
    assert (K : forall v,
               hoare (fun s => max_capacity_percent s = v) (parse_update text t0 t1)
                     (fun s => design_capacity s <= 0 -> max_capacity_percent s = v)).
    { intros v. unfold parse_update.
      do 10 (apply (hoare_bind _ (fun s => max_capacity_percent s = v));
             [ apply (hoare_preserves max_capacity_percent (fun x => x = v)); frame
             | intros _
             | intros s Hs _; exact Hs ]).
      apply (hoare_bind _ (fun s => design_capacity s <= 0 -> max_capacity_percent s = v));
        [ apply health_unguarded | intros _ | intros s Hs; exact Hs ].
      apply (hoare_preserves (fun s => (design_capacity s, max_capacity_percent s))
               (fun p => fst p <= 0 -> snd p = v)).
      frame. }
    intros s. exact (K (max_capacity_percent s) s eq_refl).
  - apply parse_update_nzd.
  - intros g Hg Hok Hd.
    destruct (parse_update text t0 t1 s) as [s' o] eqn:H. cbn [fst snd] in *.
    subst o. blocks H.
    destruct (health_block text _ _ g Hg B9) as (Hc & _ & He).
    keeps current_capacity. keeps design_capacity. keeps max_capacity_percent.
    assert (E1 : current_capacity s' = current_capacity u9) by congruence.
    assert (E2 : design_capacity s' = design_capacity u9) by congruence.
    assert (E3 : max_capacity_percent s' = max_capacity_percent u9) by congruence.
    rewrite E1, E2, E3. split; [exact Hc | ]. apply He. rewrite <- E2. exact Hd.
Qed.

Lemma health_percent_guarded_witness :
  let r := parse_update (health_text "5000" "4500") zero_clock zero_clock PowerData_init in
  search (kv_digits "AppleRawMaxCapacity") (health_text "5000" "4500") = Some "4500"
  /\ snd r = Ok tt
  /\ 0 < design_capacity (fst r)
  /\ expr_health (current_capacity (fst r)) (design_capacity (fst r))
     = Ok (max_capacity_percent (fst r))
  /\ max_capacity_percent (fst r) = PFloat ninety
  /\ Float64.compare_Z ninety 90 = Some Eq.
Proof.
  split; [reflexivity | ]. split; [reflexivity | ]. split; [reflexivity | ].
  split; [ | split; vm_compute; reflexivity ].
  exact (proj2 (proj2 (proj2 (proj2
           (health_percent_guarded (health_text "5000" "4500") zero_clock zero_clock
              PowerData_init))) "4500" eq_refl eq_refl eq_refl)).
Defined.

(** ** Parse misses *)

Lemma preserves_lift_ok {A B C} (f : PowerData -> C) (a : A) (k : A -> M B) :
  preserves f (k a) -> preserves f (bind (lift (Ok a)) k).
Proof. intros H s. exact (H s). Qed.

Lemma preserves_lift_raise {A B C} (f : PowerData -> C) (e : exn) (k : A -> M B) :
  preserves f (bind (lift (Raise e)) k).
Proof. intros s. reflexivity. Qed.

(** Uses the misses in the context, then frames the rest. *)
Ltac miss_block :=
  autounfold with blocks;
  repeat match goal with
         | H : _ = None |- _ => rewrite H
         | H : _ = Some _ |- _ => rewrite H
         end;
  frame.

Ltac miss :=
  unfold parse_update;
  do 12 (apply preserves_bind; [ solve [miss_block] | intros _ ]);
  miss_block.

Section Misses.

Variables (text : string) (t0 t1 : Float64.float).

Let cycle := parse_update text t0 t1.

Lemma miss_battery_percent :
  search (kv_digits "CurrentCapacity") text = None
  \/ search (kv_digits "MaxCapacity") text = None ->
  preserves battery_percent cycle.
Proof. intros [H | H]; subst cycle; miss. Qed.

Lemma miss_time_remaining :
  search (kv_digits "TimeRemaining") text = None ->
  preserves time_remaining cycle.
Proof. intros H; subst cycle; miss. Qed.

Lemma miss_temperature :
  search (kv_digits "Temperature") text = None -> preserves temperature cycle.
Proof. intros H; subst cycle; miss. Qed.

Lemma miss_voltage :
  search (kv_digits "Voltage") text = None -> preserves voltage cycle.
Proof. intros H; subst cycle; miss. Qed.

Lemma miss_amperage :
  a_match text = None -> preserves amperage cycle.
Proof. intros H; subst cycle; miss. Qed.

Lemma miss_cycle_count :
  search (kv_digits "CycleCount") text = None -> preserves cycle_count cycle.
Proof. intros H; subst cycle; miss. Qed.

Lemma miss_design_capacity :
  search (kv_digits "DesignCapacity") text = None ->
  preserves design_capacity cycle.
Proof. intros H; subst cycle; miss. Qed.

Lemma miss_current_capacity :
  search (kv_digits "AppleRawMaxCapacity") text = None ->
  preserves (fun s => (current_capacity s, max_capacity_percent s)) cycle.
Proof. intros H; subst cycle; miss. Qed.

Lemma miss_adapter_details :
  search adapter_details text = None ->
  preserves (fun s => (adapter_voltage s, adapter_current s, charger_wattage s)) cycle.
Proof. intros H; subst cycle; miss. Qed.

Lemma miss_adapter_voltage (ad : string) :
  search adapter_details text = Some ad ->
  search (sub_field "AdapterVoltage") (" " ++ ad) = None ->
  preserves adapter_voltage cycle.
Proof. intros H K; subst cycle; miss. Qed.

Lemma miss_adapter_current (ad : string) :
  search adapter_details text = Some ad ->
  search (sub_field "Current") (" " ++ ad) = None ->
  preserves adapter_current cycle.
Proof. intros H K; subst cycle; miss. Qed.

Lemma miss_charger_wattage (ad : string) :
  search adapter_details text = Some ad ->
  search (sub_field "Watts") (" " ++ ad) = None ->
  preserves charger_wattage cycle.
Proof. intros H K; subst cycle; miss. Qed.

End Misses.

Lemma miss_condition (prof_out lpm_out : string) :
  search condition_word prof_out = None ->
  preserves condition (slow_update prof_out lpm_out).
Proof. intros H. unfold slow_update. rewrite H. frame. Qed.

Lemma run_cycle_frame {B} (f : PowerData -> B) (env : cycle_env) (c : DataCollector)
    (text : string) :
  run_command (subprocess_run env) ioreg_args = Ok text ->
  preserves f (parse_update text (clock_start env) (clock_parsed env)) ->
  (forall prof lpm,
      run_command (subprocess_run env) profiler_args = Ok prof ->
      preserves f (slow_update prof lpm)) ->
  preserves f (run_cycle env c).
Proof.
  intros Hrun Hfast Hslow. unfold run_cycle. rewrite Hrun.
  apply preserves_lift_ok.
  apply preserves_bind; [exact Hfast | intros _].
  apply preserves_bind; [apply preserves_lift | intros elapsed].
  apply preserves_bind; [ | intros c'; frame ].
  destruct (py_gt_int elapsed 30); [ | apply preserves_ret ].
  destruct (run_command (subprocess_run env) profiler_args) as [prof | e] eqn:E;
    [ apply preserves_lift_ok | apply preserves_lift_raise ].
  apply preserves_bind; [apply preserves_lift | intros lpm].
  apply preserves_bind; [ apply Hslow; reflexivity | intros _; apply preserves_ret ].
Qed.

(** C1, as stated, fails for the fields derived from flags: after a cycle
    that saw the charger connected and low power mode on, a cycle whose
    texts are empty resets both flags to [False] and the power source to
    ['Battery']. *)
Lemma parse_miss_counterexample :
  let env1 := env_of (quoted "ExternalConnected" ++ " = Yes") "" " lowpowermode 1" in
  let env2 := env_of "" "" "" in
  let s1 := final (run_cycle env1 DataCollector_init) PowerData_init in
  let s2 := final (run_cycle env2 DataCollector_init) s1 in
  (charger_connected s1 = true /\ low_power_mode s1 = true
   /\ power_source s1 = "AC Power")
  /\ (charger_connected s2 = false /\ low_power_mode s2 = false
      /\ power_source s2 = "Battery")
  /\ ~ spec_flags_retained env2 DataCollector_init s1.
Proof.
  split; [vm_compute; repeat split | ]. split; [vm_compute; repeat split | ].
  intros H. specialize (H "" "" eq_refl eq_refl). destruct H as [H _].
  specialize (H eq_refl eq_refl). vm_compute in H. discriminate H.
Qed.

(** C1 (amended): for every field that the collector assigns only under a
    successful pattern search -- battery percent, time remaining,
    temperature, voltage, amperage, cycle count, design capacity, current
    capacity, health percent, adapter voltage, adapter current, charger
    wattage and condition -- a cycle whose fetched text does not contain
    the field's pattern leaves the field as it was, whether the cycle
    completes or raises; a cycle count of 42 stays 42.  (Power source,
    charger-connected flag, charging status and low-power flag are
    recomputed from the text on every cycle and are not covered.) *)
Theorem parse_miss_retains (env : cycle_env) (c : DataCollector) (s : PowerData)
    (text : string) :
  run_command (subprocess_run env) ioreg_args = Ok text ->
  let s' := final (run_cycle env c) s in
  (search (kv_digits "CurrentCapacity") text = None
   \/ search (kv_digits "MaxCapacity") text = None ->
   battery_percent s' = battery_percent s)
  /\ (search (kv_digits "TimeRemaining") text = None ->
      time_remaining s' = time_remaining s)
  /\ (search (kv_digits "Temperature") text = None -> temperature s' = temperature s)
  /\ (search (kv_digits "Voltage") text = None -> voltage s' = voltage s)
  /\ (a_match text = None -> amperage s' = amperage s)
  /\ (search (kv_digits "CycleCount") text = None ->
      cycle_count s' = cycle_count s /\ (cycle_count s = 42 -> cycle_count s' = 42))
  /\ (search (kv_digits "DesignCapacity") text = None ->
      design_capacity s' = design_capacity s)
  /\ (search (kv_digits "AppleRawMaxCapacity") text = None ->
      current_capacity s' = current_capacity s
      /\ max_capacity_percent s' = max_capacity_percent s)
  /\ (search adapter_details text = None ->
      adapter_voltage s' = adapter_voltage s
      /\ adapter_current s' = adapter_current s
      /\ charger_wattage s' = charger_wattage s)
  /\ (forall ad,
        search adapter_details text = Some ad ->
        (search (sub_field "AdapterVoltage") (" " ++ ad) = None ->
         adapter_voltage s' = adapter_voltage s)
        /\ (search (sub_field "Current") (" " ++ ad) = None ->
            adapter_current s' = adapter_current s)
        /\ (search (sub_field "Watts") (" " ++ ad) = None ->
            charger_wattage s' = charger_wattage s))
  /\ ((forall prof,
         run_command (subprocess_run env) profiler_args = Ok prof ->
         search condition_word prof = None) ->
      condition s' = condition s).
Proof.
  intros Hrun s'. subst s'.
  assert (F : forall B (f : PowerData -> B),
             preserves f (parse_update text (clock_start env) (clock_parsed env)) ->
             (forall prof lpm, preserves f (slow_update prof lpm)) ->
             f (final (run_cycle env c) s) = f s).
  { intros B f Hf Hs. apply (run_cycle_frame f env c text Hrun Hf). intros; apply Hs. }
  repeat match goal with |- _ /\ _ => split end.
  - intros H. apply F; [apply miss_battery_percent, H | intros; frame].
  - intros H. apply F; [apply miss_time_remaining, H | intros; frame].
  - intros H. apply F; [apply miss_temperature, H | intros; frame].
  - intros H. apply F; [apply miss_voltage, H | intros; frame].
  - intros H. apply F; [apply miss_amperage, H | intros; frame].
  - intros H.
    assert (E : cycle_count (final (run_cycle env c) s) = cycle_count s)
      by (apply F; [apply miss_cycle_count, H | intros; frame]).
    split; [exact E | intros K; rewrite E; exact K].
  - intros H. apply F; [apply miss_design_capacity, H | intros; frame].
  - intros H.
    assert (E := F _ (fun s => (current_capacity s, max_capacity_percent s))
                   (miss_current_capacity text _ _ H) ltac:(intros; frame)).
    injection E as E1 E2. split; assumption.
  - intros H.
    assert (E := F _ (fun s => (adapter_voltage s, adapter_current s, charger_wattage s))
                   (miss_adapter_details text _ _ H) ltac:(intros; frame)).
    injection E as E1 E2 E3. repeat split; assumption.
  - intros ad Had. repeat split; intros H.
    + apply F; [apply (miss_adapter_voltage text _ _ ad Had H) | intros; frame].
    + apply F; [apply (miss_adapter_current text _ _ ad Had H) | intros; frame].
    + apply F; [apply (miss_charger_wattage text _ _ ad Had H) | intros; frame].
  - intros H.
    apply (run_cycle_frame condition env c text Hrun); [miss | ].
    intros prof lpm Hp. apply miss_condition, H, Hp.
Qed.

Lemma parse_miss_retains_witness :
  let env1 := env_of (quoted "CycleCount" ++ " = 42") "" "" in
  let env2 := env_of "" "" "" in
  let s1 := final (run_cycle env1 DataCollector_init) PowerData_init in
  let s2 := final (run_cycle env2 DataCollector_init) s1 in
  run_command (subprocess_run env2) ioreg_args = Ok ""
  /\ search (kv_digits "CycleCount") "" = None
  /\ cycle_count s1 = 42
  /\ cycle_count s2 = 42.
Proof.
  split; [reflexivity | ]. split; [reflexivity | ]. split; [reflexivity | ].
  pose proof (parse_miss_retains (env_of "" "" "") DataCollector_init
                (final (run_cycle (env_of (quoted "CycleCount" ++ " = 42") "" "")
                          DataCollector_init) PowerData_init)
                "" eq_refl) as H.
  cbv zeta in H.
  destruct H as (_ & _ & _ & _ & _ & H & _).
  exact (proj2 (H eq_refl) eq_refl).
Defined.

(** ** Running the update twice on the same text *)

(** Reduces attribute reads of assignments. *)
Ltac fields :=
  cbn [power_source battery_percent charging_status time_remaining cycle_count
       condition max_capacity_percent charger_wattage charger_connected
       fully_charged low_power_mode temperature voltage amperage power_watts
       adapter_voltage adapter_current adapter_watts serial design_capacity
       current_capacity mode poll_interval power_history temp_history
       last_update_time poll_latency
       set_power_source set_charger_connected set_battery_percent
       set_charging_status set_time_remaining set_temperature set_voltage
       set_amperage set_power_watts set_power_history set_cycle_count
       set_design_capacity set_current_capacity set_max_capacity_percent
       set_adapter_voltage set_adapter_current set_charger_wattage
       set_poll_latency set_condition set_low_power_mode set_mode
       set_poll_interval] in *.

(** Closes [m t = (t, Ok tt)] when every assignment of [m] writes what [t]
    already holds. *)
Ltac same t :=
  cbv beta iota delta [bind modify get lift ret];
  repeat match goal with
         | H : ?e = Ok _ |- context [?e] => rewrite H
         end;
  cbv beta iota; fields;
  try (f_equal; destruct t; fields; subst; reflexivity).

Section Fixpoints.

Variable text : string.

Lemma fix_source s u t :
  update_source text s = (u, Ok tt) ->
  power_source t = power_source u -> charger_connected t = charger_connected u ->
  update_source text t = (t, Ok tt).
Proof.
  intros H E1 E2. unfold update_source in *. inv_ok H. fields. same t.
Qed.

Lemma fix_percent s u t :
  update_percent text s = (u, Ok tt) ->
  battery_percent t = battery_percent u ->
  update_percent text t = (t, Ok tt).
Proof.
  intros H E. unfold update_percent in *.
  destruct (search (kv_digits "CurrentCapacity") text);
    destruct (search (kv_digits "MaxCapacity") text);
    inv_ok H; fields; same t.
Qed.

Lemma fix_charging_status s u t :
  update_charging_status text s = (u, Ok tt) ->
  charging_status t = charging_status u ->
  update_charging_status text t = (t, Ok tt).
Proof.
  intros H E. unfold update_charging_status in *.
  destruct (contains _ text); [ | destruct (contains _ text) ];
    inv_ok H; fields; same t.
Qed.

Lemma fix_time_remaining s u t :
  update_time_remaining text s = (u, Ok tt) ->
  time_remaining t = time_remaining u ->
  update_time_remaining text t = (t, Ok tt).
Proof.
  intros H E. unfold update_time_remaining in *.
  destruct (search _ text) as [g | ]; [ | inv_ok H; fields; same t ].
  apply bind_ok_inv in H. destruct H as (u0 & n & C & H).
  apply lift_ok_inv in C. destruct C as [-> C].
  cbv beta iota delta [bind lift]. rewrite C. cbv beta iota.
  destruct (n =? 65535)%Z; inv_ok H; fields; same t.
Qed.

Lemma fix_temperature s u t :
  update_temperature text s = (u, Ok tt) ->
  temperature t = temperature u ->
  update_temperature text t = (t, Ok tt).
Proof.
  intros H E. unfold update_temperature in *.
  destruct (search _ text) as [g | ]; inv_ok H; fields; same t.
Qed.

Lemma fix_voltage s u t :
  update_voltage text s = (u, Ok tt) ->
  voltage t = voltage u ->
  update_voltage text t = (t, Ok tt).
Proof.
  intros H E. unfold update_voltage in *.
  destruct (search _ text) as [g | ]; inv_ok H; fields; same t.
Qed.

Lemma fix_amperage s u t :
  update_amperage text s = (u, Ok tt) ->
  amperage t = amperage u ->
  update_amperage text t = (t, Ok tt).
Proof.
  intros H E. unfold update_amperage in *.
  destruct (a_match text) as [g | ]; inv_ok H; fields; same t.
Qed.

Lemma fix_cycle_count s u t :
  update_cycle_count text s = (u, Ok tt) ->
  cycle_count t = cycle_count u ->
  update_cycle_count text t = (t, Ok tt).
Proof.
  intros H E. unfold update_cycle_count in *.
  destruct (search _ text) as [g | ]; inv_ok H; fields; same t.
Qed.

Lemma fix_design_capacity s u t :
  update_design_capacity text s = (u, Ok tt) ->
  design_capacity t = design_capacity u ->
  update_design_capacity text t = (t, Ok tt).
Proof.
  intros H E. unfold update_design_capacity in *.
  destruct (search _ text) as [g | ]; inv_ok H; fields; same t.
Qed.

End Fixpoints.

Lemma fix_health (text : string) s u t :
  update_health text s = (u, Ok tt) ->
  current_capacity t = current_capacity u ->
  design_capacity t = design_capacity u ->
  max_capacity_percent t = max_capacity_percent u ->
  update_health text t = (t, Ok tt).
Proof.
  intros H E1 E2 E3. unfold update_health in *.
  destruct (search _ text) as [g | ]; [ | inv_ok H; reflexivity ].
  apply bind_ok_inv in H. destruct H as (u0 & n & C & H).
  apply lift_ok_inv in C. destruct C as [-> C].
  apply bind_ok_inv in H. destruct H as (u1 & [] & H1 & H).
  apply modify_ok_inv in H1. subst u1.
  apply bind_ok_inv in H. destruct H as (u2 & d & H2 & H).
  apply get_ok_inv in H2. destruct H2 as [-> ->].
  cbv beta iota delta [bind modify get lift ret]. rewrite C. cbv beta iota. fields.
  destruct (0 <? design_capacity s)%Z eqn:D.
  - inv_ok H. fields. rewrite E2, D. cbv beta iota. fields. rewrite E2, Hu.
    f_equal. destruct t; fields; subst; reflexivity.
  - inv_ok H. fields. rewrite E2, D. cbv beta iota.
    f_equal. destruct t; fields; subst; reflexivity.
Qed.

Lemma fix_charger (text : string) s u t :
  update_charger text s = (u, Ok tt) ->
  adapter_voltage t = adapter_voltage u ->
  adapter_current t = adapter_current u ->
  charger_wattage t = charger_wattage u ->
  update_charger text t = (t, Ok tt).
Proof.
  intros H E1 E2 E3. unfold update_charger in *.
  destruct (search adapter_details text) as [ad | ]; [ | inv_ok H; reflexivity ].
  destruct (search (sub_field "AdapterVoltage") _) as [gv | ];
    destruct (search (sub_field "Current") _) as [gc | ];
    destruct (search (sub_field "Watts") _) as [gw | ];
    inv_ok H; fields; same t.
Qed.

Lemma expr_latency_returns (a b : Float64.float) : exists l, expr_latency a b = Ok l.
Proof.
  unfold expr_latency, py_sub, py_mul, to_float, obind.
  change (Float64.is_finite (Float64.of_Z 1000)) with true.
  cbv beta iota. eexists. reflexivity.
Qed.

Lemma set_power_watts_same (s : PowerData) : set_power_watts (power_watts s) s = s.
Proof. destruct s. reflexivity. Qed.

(** After a completed update, a second update on the same text returns and
    changes two attributes only: the power history gains one sample and the
    poll latency is measured anew. *)
Lemma parse_update_again (text : string) (a b c d : Float64.float) (s s1 : PowerData)
    (l : pynum) :
  parse_update text a b s = (s1, Ok tt) ->
  expr_latency c d = Ok l ->
  parse_update text c d s1
  = (set_poll_latency l
       (set_power_history (deque_append (power_history s1) (power_watts s1)) s1),
     Ok tt).
Proof.
  intros H L. pose proof (power_recomputed text a b s s1 H) as P.
  blocks H.
  keeps power_source. keeps charger_connected. keeps battery_percent.
  keeps charging_status. keeps time_remaining. keeps temperature. keeps voltage.
  keeps amperage. keeps cycle_count. keeps design_capacity. keeps current_capacity.
  keeps max_capacity_percent. keeps adapter_voltage. keeps adapter_current.
  keeps charger_wattage.
  set (s2 := set_power_history (deque_append (power_history s1) (power_watts s1)) s1).
  assert (F0 : update_source text s1 = (s1, Ok tt))
    by (apply (fix_source text _ _ s1 B); congruence).
  assert (F1 : update_percent text s1 = (s1, Ok tt))
    by (apply (fix_percent text _ _ s1 B0); congruence).
  assert (F2 : update_charging_status text s1 = (s1, Ok tt))
    by (apply (fix_charging_status text _ _ s1 B1); congruence).
  assert (F3 : update_time_remaining text s1 = (s1, Ok tt))
    by (apply (fix_time_remaining text _ _ s1 B2); congruence).
  assert (F4 : update_temperature text s1 = (s1, Ok tt))
    by (apply (fix_temperature text _ _ s1 B3); congruence).
  assert (F5 : update_voltage text s1 = (s1, Ok tt))
    by (apply (fix_voltage text _ _ s1 B4); congruence).
  assert (F6 : update_amperage text s1 = (s1, Ok tt))
    by (apply (fix_amperage text _ _ s1 B5); congruence).
  assert (F7 : update_power s1 = (s2, Ok tt)).
  { unfold update_power. cbv beta iota delta [bind modify get lift ret].
    rewrite P. cbv beta iota. subst s2.
    rewrite (set_power_watts_same s1). reflexivity. }
  assert (F8 : update_cycle_count text s2 = (s2, Ok tt))
    by (apply (fix_cycle_count text _ _ s2 B7); subst s2; fields; congruence).
  assert (F9 : update_design_capacity text s2 = (s2, Ok tt))
    by (apply (fix_design_capacity text _ _ s2 B8); subst s2; fields; congruence).
  assert (F10 : update_health text s2 = (s2, Ok tt))
    by (apply (fix_health text _ _ s2 B9); subst s2; fields; congruence).
  assert (F11 : update_charger text s2 = (s2, Ok tt))
    by (apply (fix_charger text _ _ s2 B10); subst s2; fields; congruence).
  unfold parse_update.
  rewrite (bind_ok_intro _ _ _ _ _ F0), (bind_ok_intro _ _ _ _ _ F1),
    (bind_ok_intro _ _ _ _ _ F2), (bind_ok_intro _ _ _ _ _ F3),
    (bind_ok_intro _ _ _ _ _ F4), (bind_ok_intro _ _ _ _ _ F5),
    (bind_ok_intro _ _ _ _ _ F6), (bind_ok_intro _ _ _ _ _ F7),
    (bind_ok_intro _ _ _ _ _ F8), (bind_ok_intro _ _ _ _ _ F9),
    (bind_ok_intro _ _ _ _ _ F10), (bind_ok_intro _ _ _ _ _ F11).
  unfold update_latency. cbv beta iota delta [bind modify lift].
  rewrite L. reflexivity.
Qed.

Lemma latency_stored (text : string) (a b : Float64.float) (s s1 : PowerData) :
  parse_update text a b s = (s1, Ok tt) -> expr_latency a b = Ok (poll_latency s1).
Proof.
  intros H. blocks H. unfold update_latency in H. inv_ok H. fields. assumption.
Qed.

(** C8, as stated, fails: the second run appends a second sample to the
    power history. *)
Lemma parse_twice_counterexample :
  let s1 := final (parse_update "" zero_clock zero_clock) PowerData_init in
  let s2 := final (parse_update "" zero_clock zero_clock) s1 in
  List.length (items (power_history s1)) = 1%nat
  /\ List.length (items (power_history s2)) = 2%nat
  /\ ~ spec_idempotent "" zero_clock zero_clock PowerData_init.
Proof.
  intros s1 s2.
  assert (E1 : parse_update "" zero_clock zero_clock PowerData_init = (s1, Ok tt))
    by (vm_compute; reflexivity).
  assert (E2 : parse_update "" zero_clock zero_clock s1 = (s2, Ok tt))
    by (vm_compute; reflexivity).
  split; [vm_compute; reflexivity | ]. split; [vm_compute; reflexivity | ].
  intros H. specialize (H s1 s2 E1 E2).
  apply (f_equal (fun s => List.length (items (power_history s)))) in H.
  vm_compute in H. discriminate H.
Qed.

(** C8 (amended): after a completed update, a second update on the same
    text completes too and leaves every attribute with the value the first
    one gave it, except the power history, which gains one more sample (the
    same power draw again), and the poll latency, which is measured from
    the clock and is the same only when the clock readings are. *)
Theorem parse_twice (text : string) (a b c d : Float64.float) (s s1 : PowerData) :
  parse_update text a b s = (s1, Ok tt) ->
  exists s2,
    parse_update text c d s1 = (s2, Ok tt)
    /\ (power_source s2 = power_source s1
        /\ battery_percent s2 = battery_percent s1
        /\ charging_status s2 = charging_status s1
        /\ time_remaining s2 = time_remaining s1
        /\ cycle_count s2 = cycle_count s1
        /\ condition s2 = condition s1
        /\ max_capacity_percent s2 = max_capacity_percent s1
        /\ charger_wattage s2 = charger_wattage s1
        /\ charger_connected s2 = charger_connected s1
        /\ fully_charged s2 = fully_charged s1
        /\ low_power_mode s2 = low_power_mode s1
        /\ temperature s2 = temperature s1
        /\ voltage s2 = voltage s1
        /\ amperage s2 = amperage s1
        /\ power_watts s2 = power_watts s1
        /\ adapter_voltage s2 = adapter_voltage s1
        /\ adapter_current s2 = adapter_current s1
        /\ adapter_watts s2 = adapter_watts s1
        /\ serial s2 = serial s1
        /\ design_capacity s2 = design_capacity s1
        /\ current_capacity s2 = current_capacity s1
        /\ mode s2 = mode s1
        /\ poll_interval s2 = poll_interval s1
        /\ temp_history s2 = temp_history s1
        /\ last_update_time s2 = last_update_time s1)
    /\ power_history s2 = deque_append (power_history s1) (power_watts s1)
    /\ expr_latency c d = Ok (poll_latency s2)
    /\ (a = c -> b = d -> poll_latency s2 = poll_latency s1).
Proof.
  intros H. destruct (expr_latency_returns c d) as (l & L).
  eexists. split; [exact (parse_update_again text a b c d s s1 l H L) | ].
  fields. split; [repeat split | ]. split; [reflexivity | ]. split; [exact L | ].
  intros -> ->. pose proof (latency_stored text c d s s1 H) as K. congruence.
Qed.

Lemma parse_twice_witness :
  let text := power_text "12000" "-500" in
  let s1 := final (parse_update text zero_clock zero_clock) PowerData_init in
  parse_update text zero_clock zero_clock PowerData_init = (s1, Ok tt)
  /\ exists s2,
       parse_update text zero_clock zero_clock s1 = (s2, Ok tt)
       /\ power_watts s2 = power_watts s1
       /\ power_history s2 = deque_append (power_history s1) (power_watts s1).
Proof.
  intros text s1.
  assert (E : parse_update text zero_clock zero_clock PowerData_init = (s1, Ok tt))
    by (vm_compute; reflexivity).
  split; [exact E | ].
  destruct (parse_twice text zero_clock zero_clock zero_clock zero_clock
              PowerData_init s1 E) as (s2 & E2 & F & Hh & _).
  exists s2. split; [exact E2 | ]. split; [ | exact Hh ].
  apply F.
Defined.

(** * Further properties of the collector and of the renderer *)

(** * Further properties of the collector *)

(** ** Which exceptions a cycle can raise *)

Lemma to_float_raises (a : pynum) (e : exn) : to_float a = Raise e -> e = OverflowError.
Proof.
  destruct a as [z | x]; cbn [to_float]; [ | discriminate ].
  destruct (Float64.is_finite _); [discriminate | intros [= <-]; reflexivity].
Qed.

Lemma py_mul_raises (a b : pynum) (e : exn) : py_mul a b = Raise e -> e = OverflowError.
Proof.
  pose proof (to_float_raises a) as Ha. pose proof (to_float_raises b) as Hb.
  destruct a as [x | x], b as [y | y]; cbv beta iota delta [py_mul obind];
    try discriminate;
    repeat match goal with
           | |- context [to_float ?c] => destruct (to_float c) as [? | ?]
           end; try discriminate; intros [= <-]; auto.
Qed.

Lemma py_sub_raises (a b : pynum) (e : exn) : py_sub a b = Raise e -> e = OverflowError.
Proof.
  pose proof (to_float_raises a) as Ha. pose proof (to_float_raises b) as Hb.
  destruct a as [x | x], b as [y | y]; cbv beta iota delta [py_sub obind];
    try discriminate;
    repeat match goal with
           | |- context [to_float ?c] => destruct (to_float c) as [? | ?]
           end; try discriminate; intros [= <-]; auto.
Qed.

Lemma py_truediv_raises (a b : pynum) (e : exn) :
  py_truediv a b = Raise e -> e = OverflowError \/ e = ZeroDivisionError.
Proof.
  pose proof (to_float_raises a) as Ha. pose proof (to_float_raises b) as Hb.
  destruct a as [x | x], b as [y | y]; cbv beta iota zeta delta [py_truediv obind].
  - destruct y; [ intros [= <-]; auto | | ];
      destruct (Float64.is_finite _); try discriminate; intros [= <-]; auto.
  - destruct (to_float (PInt x)) as [u | e0]; [ | intros [= <-]; auto ].
    cbn [to_float]. destruct (Float64.is_zero y); [ | discriminate ].
    intros [= <-]; auto.
  - cbn [to_float] in *. destruct (to_float (PInt y)) as [u | e0] eqn:E.
    + cbn [to_float] in E. rewrite E.
      destruct (Float64.is_zero u); [ | discriminate ]. intros [= <-]; auto.
    + cbn [to_float] in E. rewrite E. intros [= <-]; auto.
  - cbn [to_float]. destruct (Float64.is_zero y); [ | discriminate ].
    intros [= <-]; auto.
Qed.

(** Unfolds one arithmetic expression of the collector that raised. *)
Ltac raised H :=
  cbv beta iota delta [expr_temperature expr_millis expr_power expr_health
                       expr_latency obind] in H;
  repeat match type of H with
         | match ?o with _ => _ end = Raise _ =>
             let E := fresh "E" in
             destruct o eqn:E; [ | injection H as <- ]
         end;
  try discriminate;
  repeat match goal with
         | E : py_mul _ _ = Raise _ |- _ => apply py_mul_raises in E
         | E : py_sub _ _ = Raise _ |- _ => apply py_sub_raises in E
         | E : py_truediv _ _ = Raise _ |- _ => apply py_truediv_raises in E
         end;
  intuition.

Lemma expr_raises_overflow :
  (forall n e, expr_temperature n = Raise e -> e = OverflowError)
  /\ (forall n e, expr_millis n = Raise e -> e = OverflowError)
  /\ (forall v a e, expr_power v a = Raise e -> e = OverflowError)
  /\ (forall a b e, expr_latency a b = Raise e -> e = OverflowError).
Proof.
  destruct expr_with_constant_nzd as (N1 & N2 & N3 & N4).
  repeat split; intros.
  - assert (K : e = OverflowError \/ e = ZeroDivisionError) by (pose proof H as H'; raised H').
    destruct K as [K | K]; [exact K | subst e; destruct (N1 _ H)].
  - assert (K : e = OverflowError \/ e = ZeroDivisionError) by (pose proof H as H'; raised H').
    destruct K as [K | K]; [exact K | subst e; destruct (N2 _ H)].
  - assert (K : e = OverflowError \/ e = ZeroDivisionError) by (pose proof H as H'; raised H').
    destruct K as [K | K]; [exact K | subst e; destruct (N3 _ _ H)].
  - assert (K : e = OverflowError \/ e = ZeroDivisionError) by (pose proof H as H'; raised H').
    destruct K as [K | K]; [exact K | subst e; destruct (N4 _ _ H)].
Qed.

Lemma expr_health_raises (c d : Z) (e : exn) :
  0 < d -> expr_health c d = Raise e -> e = OverflowError.
Proof.
  intros Hd H.
  assert (K : e = OverflowError \/ e = ZeroDivisionError) by (pose proof H as H'; raised H').
  destruct K as [K | K]; [exact K | subst e; destruct (expr_health_nzd c d Hd H)].
Qed.

Lemma rw_bind {A B} (P : exn -> Prop) (m : M A) (k : A -> M B) :
  raises_within P m -> (forall a, raises_within P (k a)) -> raises_within P (bind m k).
Proof.
  intros Hm Hk s e. unfold bind. specialize (Hm s).
  destruct (m s) as [u [a | e']]; cbn [snd] in *; [apply Hk | ].
  intros [= ->]. apply Hm. reflexivity.
Qed.

Lemma rw_ret {A} (P : exn -> Prop) (a : A) : raises_within P (ret a).
Proof. intros s e. discriminate. Qed.

Lemma rw_get {A} (P : exn -> Prop) (f : PowerData -> A) : raises_within P (get f).
Proof. intros s e. discriminate. Qed.

Lemma rw_modify (P : exn -> Prop) g : raises_within P (modify g).
Proof. intros s e. discriminate. Qed.

Lemma rw_lift {A} (P : exn -> Prop) (o : outcome A) :
  (forall e, o = Raise e -> P e) -> raises_within P (lift o).
Proof. intros H s e. apply H. Qed.

Ltac rw_step :=
  first
    [ apply rw_ret
    | apply rw_get
    | apply rw_modify
    | apply rw_lift; intros ? ?;
      first [ right; eapply py_int_str_raises; eassumption
            | left;
              first [ eapply (proj1 expr_raises_overflow); eassumption
                    | eapply (proj1 (proj2 expr_raises_overflow)); eassumption
                    | eapply (proj1 (proj2 (proj2 expr_raises_overflow))); eassumption
                    | eapply (proj2 (proj2 (proj2 expr_raises_overflow))); eassumption ] ]
    | apply rw_bind; [ | intros ]
    | match goal with
      | |- raises_within _ (match ?x with _ => _ end) => destruct x
      end ].

Lemma update_health_raises (text : string) :
  raises_within (fun e => e = OverflowError \/ e = ValueError) (update_health text).
Proof.
  unfold update_health.
  destruct (search (kv_digits "AppleRawMaxCapacity") text) as [g | ]; [ | apply rw_ret ].
  apply rw_bind;
    [ apply rw_lift; intros e H; right; exact (py_int_str_raises _ _ H) | intros n ].
  intros s e. cbv beta iota delta [bind modify get lift].
  destruct (0 <? design_capacity (set_current_capacity n s))%Z eqn:D;
    [ | discriminate ].
  apply Z.ltb_lt in D.
  destruct (expr_health _ _) as [r | e'] eqn:E; [discriminate | ].
  cbn [snd]. intros [= <-]. left. exact (expr_health_raises _ _ _ D E).
Qed.

Lemma parse_update_raises (text : string) (t0 t1 : Float64.float) :
  raises_within (fun e => e = OverflowError \/ e = ValueError) (parse_update text t0 t1).
Proof.
  unfold parse_update.
  do 12 (apply rw_bind;
         [ lazymatch goal with
           | |- raises_within _ (update_health _) => apply update_health_raises
           | _ => solve [ autounfold with blocks; repeat rw_step ]
           end
         | intros _ ]).
  autounfold with blocks; repeat rw_step.
Qed.

Lemma run_command_raises (run : run_request -> proc_result) (args : list string) (e : exn) :
  run_command run args = Raise e -> is_Exception e = false.
Proof.
  unfold run_command. destruct (run _) as [rc out err | e']; [discriminate | ].
  destruct (is_Exception e') eqn:E; [discriminate | ]. intros [= <-]. exact E.
Qed.

(** X1: the update block can raise nothing but [OverflowError] (a reading
    too large for a float) and [ValueError] (a reading of more than 4300
    digits, which [int] refuses), and a whole turn of the loop nothing but
    these or an exception of [subprocess.run] that is not an [Exception];
    in particular never [ZeroDivisionError], nor a timeout or a spawn
    error of a child. *)
Theorem cycle_raises_only_conversion_errors :
  (forall text t0 t1 s e,
      snd (parse_update text t0 t1 s) = Raise e ->
      e = OverflowError \/ e = ValueError)
  /\ (forall env c s e,
        snd (run_cycle env c s) = Raise e ->
        (e = OverflowError \/ e = ValueError) \/ is_Exception e = false).
Proof.
  split.
  - intros text t0 t1 s e. apply parse_update_raises.
  - intros env c.
    change (raises_within
              (fun e => (e = OverflowError \/ e = ValueError) \/ is_Exception e = false)
              (run_cycle env c)).
    unfold run_cycle.
    apply rw_bind; [ apply rw_lift; intros e H; right; exact (run_command_raises _ _ _ H) | intros text ].
    apply rw_bind; [ intros s e H; left; exact (parse_update_raises _ _ _ s e H) | intros _ ].
    apply rw_bind; [ apply rw_lift; intros e H; left; left; exact (py_sub_raises _ _ _ H) | intros elapsed ].
    apply rw_bind; [ | intros c'; apply rw_bind; [apply rw_get | intros; apply rw_ret] ].
    destruct (py_gt_int elapsed 30); [ | apply rw_ret ].
    apply rw_bind; [ apply rw_lift; intros e H; right; exact (run_command_raises _ _ _ H) | intros prof ].
    apply rw_bind; [ apply rw_lift; intros e H; right; exact (run_command_raises _ _ _ H) | intros lpm ].
    apply rw_bind; [ | intros; apply rw_ret ].
    unfold slow_update.
    apply rw_bind; [ destruct (search _ _); [apply rw_modify | apply rw_ret] | intros ].
    apply rw_modify.
Qed.

Lemma cycle_raises_only_conversion_errors_witness :
  snd (parse_update (quoted "Voltage" ++ " = " ++ one_and_zeros 400)
         zero_clock zero_clock PowerData_init) = Raise OverflowError
  /\ snd (parse_update (quoted "Voltage" ++ " = " ++ ones 4301)
            zero_clock zero_clock PowerData_init) = Raise ValueError.
Proof.
  split.
  - destruct (snd (parse_update (quoted "Voltage" ++ " = " ++ one_and_zeros 400)
                     zero_clock zero_clock PowerData_init)) as [[] | e] eqn:E.
    + vm_compute in E. discriminate E.
    + f_equal.
      destruct (proj1 cycle_raises_only_conversion_errors _ _ _ _ e E) as [K | K];
        [exact K | ].
      subst e. vm_compute in E. discriminate E.
  - destruct (snd (parse_update (quoted "Voltage" ++ " = " ++ ones 4301)
                     zero_clock zero_clock PowerData_init)) as [[] | e] eqn:E.
    + vm_compute in E. discriminate E.
    + f_equal.
      destruct (proj1 cycle_raises_only_conversion_errors _ _ _ _ e E) as [K | K];
        [ | exact K ].
      subst e. vm_compute in E. discriminate E.
Defined.

(** ** What the collector leaves to the renderer *)

Lemma run_cycle_untouched (env : cycle_env) (c : DataCollector) :
  preserves (fun s => (mode s, poll_interval s, serial s, fully_charged s,
                       adapter_watts s, last_update_time s, temp_history s))
    (run_cycle env c).
Proof. unfold run_cycle, parse_update. frame. Qed.

Lemma run_cycle_interval (env : cycle_env) (c c' : DataCollector) (s : PowerData)
    (dt : pynum) :
  snd (run_cycle env c s) = Ok (c', dt) -> dt = poll_interval s.
Proof.
  intros H. pose proof (run_cycle_untouched env c s) as E. cbv beta in E.
  injection E as _ E2 _ _ _ _ _. rewrite <- E2. unfold final.
  destruct (run_cycle env c s) as [t o] eqn:R. cbn [fst snd] in *. subst o.
  unfold run_cycle in R. inv_ok R. congruence.
Qed.

(** X2: whatever the fetched texts are and whether the turn completes or
    raises, the collector never writes the poll mode, the poll interval,
    the serial, the fully-charged flag, the adapter watts, the last update
    time or the temperature history. *)
Theorem collector_leaves_renderer_fields (env : cycle_env) (c : DataCollector)
    (s : PowerData) :
  let s' := final (run_cycle env c) s in
  mode s' = mode s /\ poll_interval s' = poll_interval s /\ serial s' = serial s
  /\ fully_charged s' = fully_charged s /\ adapter_watts s' = adapter_watts s
  /\ last_update_time s' = last_update_time s /\ temp_history s' = temp_history s.
Proof.
  intros s'. subst s'.
  pose proof (run_cycle_untouched env c s) as E. cbv beta in E.
  injection E as E1 E2 E3 E4 E5 E6 E7.
  repeat split; assumption.
Qed.

(** ** Rules for whole turns of the loop *)

Lemma hoare_ret {A} (P : PowerData -> Prop) (a : A) : hoare P (ret a) P.
Proof. intros s H. exact H. Qed.

Lemma hoare_get {A} (P : PowerData -> Prop) (f : PowerData -> A) : hoare P (get f) P.
Proof. intros s H. exact H. Qed.

Lemma hoare_lift {A} (P : PowerData -> Prop) (o : outcome A) : hoare P (lift o) P.
Proof. intros s H. exact H. Qed.

Lemma hoare_modify (P Q : PowerData -> Prop) (g : PowerData -> PowerData) :
  (forall s, P s -> Q (g s)) -> hoare P (modify g) Q.
Proof. intros H s Hs. apply H, Hs. Qed.

Lemma hoare_seq {A B} (P : PowerData -> Prop) (m : M A) (k : A -> M B) :
  hoare P m P -> (forall a, hoare P (k a) P) -> hoare P (bind m k) P.
Proof. intros Hm Hk. apply (hoare_bind P P P); auto. Qed.

(** The part of a turn that follows the update block keeps [Q] when the
    slow check does. *)
Lemma after_update_hoare (Q : PowerData -> Prop) (env : cycle_env) (c : DataCollector) :
  (forall prof lpm, hoare Q (slow_update prof lpm) Q) ->
  hoare Q
    (elapsed <- lift (py_sub (PFloat (clock_check env)) (last_slow_check c)) ;;
     c' <- (if py_gt_int elapsed 30 then
              prof_out <- lift (run_command (subprocess_run env) profiler_args) ;;
              lpm_out <- lift (run_command (subprocess_run env) pmset_args) ;;
              slow_update prof_out lpm_out ;;
              ret (mk_DataCollector (running c) (PFloat (clock_slow env)))
            else ret c) ;;
     interval <- get poll_interval ;;
     ret (c', interval))
    Q.
Proof.
  intros Hslow.
  apply hoare_seq; [apply hoare_lift | intros elapsed].
  apply hoare_seq.
  - destruct (py_gt_int elapsed 30); [ | apply hoare_ret ].
    apply hoare_seq; [apply hoare_lift | intros prof].
    apply hoare_seq; [apply hoare_lift | intros lpm].
    apply hoare_seq; [apply Hslow | intros _; apply hoare_ret].
  - intros c'. apply hoare_seq; [apply hoare_get | intros dt; apply hoare_ret].
Qed.

(** A turn whose fetch returned [text]. *)
Lemma run_cycle_hoare (P Q : PowerData -> Prop) (env : cycle_env) (c : DataCollector)
    (text : string) :
  run_command (subprocess_run env) ioreg_args = Ok text ->
  hoare P (parse_update text (clock_start env) (clock_parsed env)) Q ->
  (forall prof lpm, hoare Q (slow_update prof lpm) Q) ->
  hoare P (run_cycle env c) Q.
Proof.
  intros Hrun Hfast Hslow s Hs. unfold run_cycle. rewrite Hrun.
  change (Q (final (parse_update text (clock_start env) (clock_parsed env) ;;
                    (elapsed <- lift (py_sub (PFloat (clock_check env)) (last_slow_check c)) ;;
                     c' <- (if py_gt_int elapsed 30 then
                              prof_out <- lift (run_command (subprocess_run env) profiler_args) ;;
                              lpm_out <- lift (run_command (subprocess_run env) pmset_args) ;;
                              slow_update prof_out lpm_out ;;
                              ret (mk_DataCollector (running c) (PFloat (clock_slow env)))
                            else ret c) ;;
                     interval <- get poll_interval ;;
                     ret (c', interval))) s)).
  revert s Hs. apply (hoare_bind P Q Q).
  - exact Hfast.
  - intros _. apply after_update_hoare, Hslow.
  - auto.
Qed.

(** A turn, whatever the fetch gives. *)
Lemma run_cycle_invariant (P : PowerData -> Prop) (env : cycle_env) (c : DataCollector) :
  (forall text t0 t1, hoare P (parse_update text t0 t1) P) ->
  (forall prof lpm, hoare P (slow_update prof lpm) P) ->
  hoare P (run_cycle env c) P.
Proof.
  intros Hfast Hslow. unfold run_cycle.
  apply hoare_seq; [apply hoare_lift | intros text].
  apply hoare_seq; [apply Hfast | intros _].
  apply after_update_hoare, Hslow.
Qed.

(** ** Source, connection and charging status *)

Lemma hoare_bind_total {A B} (P R Q : PowerData -> Prop) (m : M A) (k : A -> M B) :
  returns m -> hoare P m R -> (forall a, hoare R (k a) Q) -> hoare P (bind m k) Q.
Proof.
  intros Ht Hm Hk s Hs. rewrite final_bind. specialize (Hm s Hs). unfold final in Hm.
  destruct (Ht s) as (u & a & E). rewrite E in *. cbn [fst] in Hm. apply Hk, Hm.
Qed.

Lemma source_block (text : string) (t0 t1 : Float64.float) :
  hoare (fun _ => True) (parse_update text t0 t1)
    (fun s' =>
       (power_source s', charger_connected s')
       = (if ext_conn text then "AC Power" else "Battery", ext_conn text)).
Proof.
  set (src := if ext_conn text then "AC Power" else "Battery").
  unfold parse_update.
  apply (hoare_bind_total _
           (fun s' => (power_source s', charger_connected s') = (src, ext_conn text)));
    [ apply returns_update_source | intros s _; reflexivity | intros _ ].
  apply (hoare_preserves (fun s => (power_source s, charger_connected s))
           (fun p => p = (src, ext_conn text))).
  frame.
Qed.

Lemma status_block (text : string) (t0 t1 : Float64.float) :
  percent_convertible text ->
  hoare (fun _ => True) (parse_update text t0 t1)
    (fun s' =>
       (power_source s', charger_connected s', charging_status s')
       = (if ext_conn text then "AC Power" else "Battery",
          ext_conn text,
          if contains (quoted "FullyCharged" ++ " = Yes") text then "Fully Charged"
          else if contains (quoted "IsCharging" ++ " = Yes") text then "Charging"
          else if negb (ext_conn text) then "Discharging" else "Connected")).
Proof.
  intros Hconv.
  set (src := if ext_conn text then "AC Power" else "Battery").
  set (st := if contains (quoted "FullyCharged" ++ " = Yes") text then "Fully Charged"
             else if contains (quoted "IsCharging" ++ " = Yes") text then "Charging"
             else if negb (ext_conn text) then "Discharging" else "Connected").
  unfold parse_update.
  apply (hoare_bind_total _
           (fun s' => (power_source s', charger_connected s') = (src, ext_conn text)));
    [ apply returns_update_source | intros s _; reflexivity | intros _ ].
  apply (hoare_bind_total _
           (fun s' => (power_source s', charger_connected s') = (src, ext_conn text)));
    [ apply returns_update_percent, Hconv
    | apply (hoare_preserves (fun s => (power_source s, charger_connected s))
               (fun p => p = (src, ext_conn text))); frame
    | intros _ ].
  apply (hoare_bind _
           (fun s' => (power_source s', charger_connected s', charging_status s')
                      = (src, ext_conn text, st))).
  - intros s H. injection H as H1 H2. subst st. unfold final, update_charging_status.
    destruct (contains (quoted "FullyCharged" ++ " = Yes") text);
      [ | destruct (contains (quoted "IsCharging" ++ " = Yes") text) ];
      cbn; rewrite H1, H2; reflexivity.
  - intros _.
    apply (hoare_preserves (fun s => (power_source s, charger_connected s, charging_status s))
             (fun p => p = (src, ext_conn text, st))); frame.
  - auto.
Qed.

(** X3: after any turn whose fetch returned, completed or not, the power
    source is ['AC Power'] exactly when the charger-connected flag is set
    and ['Battery'] otherwise.  When moreover the conversion of the battery
    percent does not raise (the [CurrentCapacity] value has at most 4300
    digits, or one of the two capacities is missing), the charging status
    is one of the four documented strings, ['Connected'] only with the
    charger connected and ['Discharging'] only without it, and a
    [FullyCharged] token wins over an [IsCharging] token. *)
Theorem status_fields_consistent (env : cycle_env) (c : DataCollector) (s : PowerData)
    (text : string) :
  run_command (subprocess_run env) ioreg_args = Ok text ->
  let s' := final (run_cycle env c) s in
  ((charger_connected s' = true <-> power_source s' = "AC Power")
   /\ (charger_connected s' = false <-> power_source s' = "Battery"))
  /\ (percent_convertible text ->
      (charging_status s' = "Fully Charged" \/ charging_status s' = "Charging"
       \/ charging_status s' = "Discharging" \/ charging_status s' = "Connected")
      /\ (charging_status s' = "Connected" -> charger_connected s' = true)
      /\ (charging_status s' = "Discharging" -> charger_connected s' = false)
      /\ (contains (quoted "FullyCharged" ++ " = Yes") text = true ->
          charging_status s' = "Fully Charged")
      /\ (charging_status s' = "Charging" ->
          contains (quoted "IsCharging" ++ " = Yes") text = true)).
Proof.
  intros Hrun s'. subst s'. split.
  - pose proof (run_cycle_hoare (fun _ => True) _ env c text Hrun (source_block text _ _))
      as H.
    specialize (H ltac:(intros prof lpm;
                        apply (hoare_preserves
                                 (fun s => (power_source s, charger_connected s))
                                 (fun p => p = _)); frame) s I).
    cbv beta in H.
    remember (ext_conn text) as ec eqn:Eec.
    remember (final (run_cycle env c) s) as s' eqn:Es'.
    clear Eec Es' Hrun. injection H as H1 H2. rewrite H1, H2.
    destruct ec; cbn; repeat split; intros; congruence.
  - intros Hconv.
    pose proof (run_cycle_hoare (fun _ => True) _ env c text Hrun
                  (status_block text _ _ Hconv)) as H.
    specialize (H ltac:(intros prof lpm;
                        apply (hoare_preserves
                                 (fun s => (power_source s, charger_connected s,
                                            charging_status s))
                                 (fun p => p = _)); frame) s I).
    cbv beta in H.
    remember (ext_conn text) as ec eqn:Eec.
    remember (contains (quoted "FullyCharged" ++ " = Yes") text) as fc eqn:Efc.
    remember (contains (quoted "IsCharging" ++ " = Yes") text) as ic eqn:Eic.
    remember (final (run_cycle env c) s) as s' eqn:Es'.
    clear Eec Efc Eic Es' Hrun Hconv. injection H as _ H2 H3. rewrite H2, H3.
    destruct ec, fc, ic; cbn; repeat split; intros; try congruence; auto 6.
Qed.

Lemma status_fields_consistent_witness :
  let text := quoted "ExternalConnected" ++ " = Yes" ++ newline
              ++ quoted "IsCharging" ++ " = Yes" ++ newline
              ++ quoted "FullyCharged" ++ " = Yes" in
  let env := env_of text "" "" in
  let s' := final (run_cycle env DataCollector_init) PowerData_init in
  percent_convertible text
  /\ power_source s' = "AC Power" /\ charging_status s' = "Fully Charged".
Proof.
  intros text env s'.
  assert (Hc : percent_convertible text) by (apply no_capacity_convertible; reflexivity).
  pose proof (status_fields_consistent env DataCollector_init PowerData_init text eq_refl)
    as ((H1 & _) & H).
  destruct (H Hc) as (_ & _ & _ & H6 & _).
  split; [exact Hc | ]. split.
  - apply H1. vm_compute. reflexivity.
  - apply H6. vm_compute. reflexivity.
Defined.

(** Without that condition the status can be stale: a [CurrentCapacity]
    of 4301 digits stops the update before the status is written. *)
Lemma status_stale_over_limit :
  let text := capacity_text (ones 4301) "100" ++ newline
              ++ quoted "IsCharging" ++ " = Yes" in
  charging_status (final (parse_update text zero_clock zero_clock) PowerData_init)
  = "Unknown".
Proof. vm_compute. reflexivity. Qed.

(** ** A fetch that fails *)

(** X4: when [subprocess.run] raises an [Exception] for the registry
    query (timeout, spawn error), the turn goes on with the empty text:
    the power source becomes ['Battery'], the charger-connected flag
    [False] and the charging status ['Discharging'], while the twelve
    values read by pattern search keep the values they had; this holds
    whether the turn then completes or raises. *)
Theorem failed_fetch_cycle (env : cycle_env) (c : DataCollector) (s : PowerData)
    (e : exn) :
  subprocess_run env (request_for ioreg_args) = Failed e ->
  is_Exception e = true ->
  let s' := final (run_cycle env c) s in
  (power_source s' = "Battery" /\ charger_connected s' = false
   /\ charging_status s' = "Discharging")
  /\ (battery_percent s' = battery_percent s
      /\ time_remaining s' = time_remaining s
      /\ temperature s' = temperature s
      /\ voltage s' = voltage s
      /\ amperage s' = amperage s
      /\ cycle_count s' = cycle_count s
      /\ design_capacity s' = design_capacity s
      /\ current_capacity s' = current_capacity s
      /\ max_capacity_percent s' = max_capacity_percent s
      /\ adapter_voltage s' = adapter_voltage s
      /\ adapter_current s' = adapter_current s
      /\ charger_wattage s' = charger_wattage s).
Proof.
  intros Hfail He s'. subst s'.
  assert (Hrun : run_command (subprocess_run env) ioreg_args = Ok "").
  { unfold run_command. unfold request_for in Hfail. rewrite Hfail, He. reflexivity. }
  split.
  - pose proof (run_cycle_hoare (fun _ => True) _ env c "" Hrun (status_block "" _ _ (no_capacity_convertible "" eq_refl)))
      as H.
    specialize (H ltac:(intros prof lpm;
                        apply (hoare_preserves
                                 (fun s => (power_source s, charger_connected s,
                                            charging_status s))
                                 (fun p => p = _)); frame) s I).
    cbv beta in H. remember (final (run_cycle env c) s) as s' eqn:Es'. clear Es'.
    injection H as H1 H2 H3. repeat split; assumption.
  - assert (F : forall B (f : PowerData -> B),
               preserves f (parse_update "" (clock_start env) (clock_parsed env)) ->
               (forall prof lpm, preserves f (slow_update prof lpm)) ->
               f (final (run_cycle env c) s) = f s).
    { intros B f Hf Hs. apply (run_cycle_frame f env c "" Hrun Hf). intros; apply Hs. }
    assert (E1 := F _ (fun s => (current_capacity s, max_capacity_percent s))
                    (miss_current_capacity "" _ _ eq_refl) ltac:(intros; frame)).
    assert (E2 := F _ (fun s => (adapter_voltage s, adapter_current s, charger_wattage s))
                    (miss_adapter_details "" _ _ eq_refl) ltac:(intros; frame)).
    cbv beta in E1, E2. injection E1 as E11 E12. injection E2 as E21 E22 E23.
    repeat split; try assumption.
    + apply F; [apply miss_battery_percent; left; reflexivity | intros; frame].
    + apply F; [apply miss_time_remaining; reflexivity | intros; frame].
    + apply F; [apply miss_temperature; reflexivity | intros; frame].
    + apply F; [apply miss_voltage; reflexivity | intros; frame].
    + apply F; [apply miss_amperage; reflexivity | intros; frame].
    + apply F; [apply miss_cycle_count; reflexivity | intros; frame].
    + apply F; [apply miss_design_capacity; reflexivity | intros; frame].
Qed.

Lemma failed_fetch_cycle_witness :
  let env := mk_env zero_clock zero_clock zero_clock zero_clock
               (fun _ => Failed TimeoutExpired) in
  let s1 := final (run_cycle (env_of (quoted "CycleCount" ++ " = 42" ++ newline
                                      ++ quoted "ExternalConnected" ++ " = Yes")
                               "" "")
                     DataCollector_init) PowerData_init in
  let s2 := final (run_cycle env DataCollector_init) s1 in
  (cycle_count s1 = 42 /\ power_source s1 = "AC Power")
  /\ (cycle_count s2 = 42 /\ power_source s2 = "Battery").
Proof.
  intros env s1 s2. split; [split; vm_compute; reflexivity | ].
  destruct (failed_fetch_cycle env DataCollector_init s1 TimeoutExpired eq_refl eq_refl)
    as ((P & _ & _) & (_ & _ & _ & _ & _ & K & _)).
  split; [ | exact P ].
  fold s2 in K. rewrite K. vm_compute. reflexivity.
Defined.

(** ** The slow check *)

(** X5: the slow check runs only when more than 30 seconds separate the
    clock from the last slow check.  Otherwise the condition and the
    low-power flag keep their values and the collector keeps its timer; when
    it runs and the turn completes, the timer is set to the clock read after
    it and the low-power flag is [True] exactly when the settings text has
    [lowpowermode] followed by the digit 1. *)
Theorem slow_check_rate_limited (env : cycle_env) (c : DataCollector) (s : PowerData)
    (text : string) (elapsed : pynum) :
  run_command (subprocess_run env) ioreg_args = Ok text ->
  py_sub (PFloat (clock_check env)) (last_slow_check c) = Ok elapsed ->
  let s' := final (run_cycle env c) s in
  (py_gt_int elapsed 30 = false ->
   condition s' = condition s /\ low_power_mode s' = low_power_mode s
   /\ forall c' dt, snd (run_cycle env c s) = Ok (c', dt) -> c' = c)
  /\ (py_gt_int elapsed 30 = true ->
      forall c' dt,
        snd (run_cycle env c s) = Ok (c', dt) ->
        c' = mk_DataCollector (running c) (PFloat (clock_slow env))
        /\ exists lpm,
            run_command (subprocess_run env) pmset_args = Ok lpm
            /\ low_power_mode s' =
               match search lowpowermode_digit lpm with
               | Some d => String.eqb d "1"
               | None => false
               end).
Proof.
  intros Hrun Hel s'. subst s'. split; intros Hgt.
  - assert (P : preserves (fun s => (condition s, low_power_mode s)) (run_cycle env c)).
    { unfold run_cycle. rewrite Hrun, Hel. apply preserves_lift_ok.
      apply preserves_bind; [unfold parse_update; frame | intros _].
      apply preserves_lift_ok. rewrite Hgt. frame. }
    specialize (P s). cbv beta in P. injection P as P1 P2.
    split; [exact P1 | split; [exact P2 | ] ].
    intros c' dt R. unfold final in *.
    destruct (run_cycle env c s) as [t o] eqn:E. cbn [fst snd] in *. subst o.
    unfold run_cycle in E. inv_ok E.
    assert (a1 = elapsed) by congruence. subst a1. rewrite Hgt in Hu2.
    inv_ok Hu2. congruence.
  - intros c' dt R. unfold final in *.
    destruct (run_cycle env c s) as [t o] eqn:E. cbn [fst snd] in *. subst o.
    unfold run_cycle in E. inv_ok E.
    assert (a1 = elapsed) by congruence. subst a1. rewrite Hgt in Hu2.
    inv_ok Hu2. injection E as -> _.
    split; [reflexivity | ]. exists a3. split; [assumption | ].
    unfold slow_update in Hu5. inv_ok Hu5. reflexivity.
Qed.

Lemma slow_check_rate_limited_witness :
  let thirty := Float64.of_Z 30 in
  let env := mk_env zero_clock zero_clock thirty thirty
               (fun _ => Completed 0 " lowpowermode 1" "") in
  let r := run_cycle env DataCollector_init PowerData_init in
  py_gt_int (PFloat thirty) 30 = false
  /\ low_power_mode (fst r) = false
  /\ (forall c' dt, snd r = Ok (c', dt) -> c' = DataCollector_init).
Proof.
  intros thirty env r.
  destruct (slow_check_rate_limited env DataCollector_init PowerData_init
              " lowpowermode 1" (PFloat thirty) eq_refl eq_refl) as [H _].
  specialize (H eq_refl). destruct H as (_ & H2 & H3).
  split; [reflexivity | ]. split; [exact H2 | exact H3].
Defined.

(** ** Invariants of the snapshot *)

Lemma opt_lit_some {A} (P : A -> Prop) (p : string) (k : string -> option A)
    (s : string) (a : A) :
  (forall r, k r = Some a -> P a) -> opt_lit p k s = Some a -> P a.
Proof.
  intros Hk. unfold opt_lit.
  destruct (lit p s) as [r | ]; [ | apply Hk ].
  destruct (k r) eqn:E; [ | apply Hk ].
  intros [= <-]. apply (Hk r E).
Qed.

Lemma sub_field_all_digits (name s ds : string) :
  search (sub_field name) s = Some ds -> all_digits ds = true.
Proof.
  intros H. apply search_some in H. destruct H as (t & H).
  unfold sub_field in H.
  destruct (one _ t) as [[c s1] | ]; [ | discriminate ].
  cbn [and_then] in H. revert H. apply (opt_lit_some (fun d => all_digits d = true)). intros s2.
  destruct (lit name s2) as [s3 | ]; [ | discriminate ].
  cbn [and_then]. apply (opt_lit_some (fun d => all_digits d = true)). intros s4.
  destruct (one _ s4) as [[c' s5] | ]; [ | discriminate ].
  cbn [and_then].
  destruct (many1 is_digit s5) as [[a r] | ] eqn:E; [ | discriminate ].
  cbn [and_then]. intros [= <-]. eapply many1_all_digits, E.
Qed.

Lemma hoare_lift_bind {A B} (P : PowerData -> Prop) (o : outcome A) (k : A -> M B) :
  (forall a, o = Ok a -> hoare P (k a) P) -> hoare P (bind (lift o) k) P.
Proof.
  intros H s Hs. unfold final, bind, lift.
  destruct o as [a | e]; [exact (H a eq_refl s Hs) | exact Hs].
Qed.

(** Turns the successful searches and conversions of the context into
    bounds. *)
Ltac digit_bounds :=
  repeat match goal with
         | K : py_int_str ?g = Ok ?n |- _ => apply py_int_str_inv in K; subst n
         end;
  repeat match goal with
         | E : search (kv_digits _) _ = Some ?g |- _ =>
             pose proof (proj2 (py_int_digits g (kv_digits_all_digits _ _ _ E)));
             clear E
         | E : search (sub_field _) _ = Some ?g |- _ =>
             pose proof (proj2 (py_int_digits g (sub_field_all_digits _ _ _ E)));
             clear E
         end.

Ltac counters_step :=
  lazymatch goal with
  | |- hoare _ (ret _) _ => apply hoare_ret
  | |- hoare _ (get _) _ => apply hoare_get
  | |- hoare _ (lift _) _ => apply hoare_lift
  | |- hoare _ (modify _) _ =>
      apply hoare_modify;
      let s := fresh "s" in
      let H := fresh "H" in
      intros s H; digit_bounds; unfold counters_ok in *; fields; intuition
  | |- hoare _ (bind (lift _) _) _ => apply hoare_lift_bind; intros ? ?
  | |- hoare _ (bind _ _) _ => apply hoare_seq; [ | intros ]
  | |- hoare _ (match ?x with _ => _ end) _ =>
      let E := fresh "E" in destruct x eqn:E
  | |- hoare _ (let _ := _ in _) _ => cbv zeta
  end.

Lemma parse_update_counters (text : string) (t0 t1 : Float64.float) :
  hoare counters_ok (parse_update text t0 t1) counters_ok.
Proof.
  unfold parse_update.
  do 12 (apply hoare_seq;
         [ solve [ autounfold with blocks; repeat counters_step ] | intros _ ]).
  autounfold with blocks; repeat counters_step.
Qed.

(** X6: the counters read as digit strings -- battery percent, cycle
    count, design capacity, current capacity, adapter current and charger
    wattage -- are never negative: they are not at construction, and no
    turn of the loop, completed or not, makes one negative. *)
Theorem counters_never_negative :
  counters_ok PowerData_init
  /\ (forall env c s, counters_ok s -> counters_ok (final (run_cycle env c) s)).
Proof.
  split.
  - unfold counters_ok. cbn. lia.
  - intros env c. apply run_cycle_invariant.
    + apply parse_update_counters.
    + intros prof lpm. unfold slow_update. repeat counters_step.
Qed.

Lemma counters_never_negative_witness :
  let env := env_of (quoted "CycleCount" ++ " = 42") "" "" in
  counters_ok PowerData_init
  /\ counters_ok (final (run_cycle env DataCollector_init) PowerData_init).
Proof.
  intros env. destruct counters_never_negative as [I K].
  split; [exact I | exact (K env DataCollector_init PowerData_init I)].
Defined.

Lemma Forall_deque_append (P : pynum -> Prop) (d : deque) (x : pynum) :
  Forall P (items d) -> P x -> Forall P (items (deque_append d x)).
Proof.
  intros Hd Hx. unfold deque_append. cbn [items].
  assert (H : Forall P (items d ++ [x])) by (apply Forall_app; split; auto).
  destruct (maxlen d <? _)%nat; [ | exact H ].
  destruct (items d ++ [x])%list as [ | y l]; [exact H | ].
  cbn [tl]. inversion H. assumption.
Qed.

Lemma expr_power_sample (v : pynum) (a : Z) (r : pynum) :
  voltage_ok v -> expr_power v a = Ok r -> sample_ok r.
Proof.
  intros Hv. unfold expr_power. destruct v as [z | x]; cbn [voltage_ok] in Hv.
  - cbv beta iota delta [obind py_mul py_abs].
    destruct (py_truediv _ _) as [w | e] eqn:E; [ | discriminate ].
    apply truediv_nat_sign in E; [ | pose proof (Z.abs_nonneg a); nia | lia ].
    destruct E as (y & -> & _ & S). cbv beta iota. intros [= <-].
    eexists. split; [reflexivity | ]. apply Sign.round_sign, S.
  - destruct Hv as [F S]. cbv beta iota zeta delta [obind py_mul py_abs to_float].
    destruct (Float64.is_finite (Float64.of_Z (Z.abs a))) eqn:Fa;
      cbv beta iota; [ | discriminate ].
    destruct (py_truediv _ _) as [w | e] eqn:E; [ | discriminate ].
    apply div_1000_sign in E.
    + destruct E as (y & -> & Sy). cbv beta iota. intros [= <-].
      eexists. split; [reflexivity | ]. apply Sign.round_sign, Sy.
    + apply Sign.mul_sign; [exact F | exact Fa | exact S | ].
      apply Sign.of_Z_sign, Z.abs_nonneg.
Qed.

Lemma update_voltage_samples (text : string) :
  hoare samples_ok (update_voltage text) samples_ok.
Proof.
  intros s [Hv Hh]. unfold final, update_voltage.
  destruct (search (kv_digits "Voltage") text) as [g | ] eqn:Hg; [ | split; assumption ].
  cbv beta iota delta [bind lift modify].
  destruct (py_int_str g) as [n | e0] eqn:C; [ | split; assumption ].
  apply py_int_str_inv in C. subst n.
  destruct (expr_millis (py_int g)) as [v | e] eqn:E; [ | split; assumption ].
  split; [ | exact Hh ]. cbn.
  eapply expr_millis_ok; [ | exact E ].
  apply (py_int_digits g (kv_digits_all_digits _ _ _ Hg)).
Qed.

Lemma update_power_samples : hoare samples_ok update_power samples_ok.
Proof.
  intros s [Hv Hh]. unfold final, update_power.
  cbv beta iota delta [bind get lift modify].
  destruct (expr_power (voltage s) (amperage s)) as [r | e] eqn:E; [ | split; assumption ].
  split; [exact Hv | ]. cbn.
  apply Forall_deque_append; [exact Hh | ].
  eapply expr_power_sample; eassumption.
Qed.

Lemma parse_update_samples (text : string) (t0 t1 : Float64.float) :
  hoare samples_ok (parse_update text t0 t1) samples_ok.
Proof.
  unfold parse_update.
  do 12 (apply hoare_seq;
         [ lazymatch goal with
           | |- hoare _ (update_voltage _) _ => apply update_voltage_samples
           | |- hoare _ update_power _ => apply update_power_samples
           | _ => apply (hoare_preserves (fun s => (voltage s, power_history s))
                           (fun p => voltage_ok (fst p) /\ Forall sample_ok (items (snd p))));
                  solve [ frame ]
           end
         | intros _ ]).
  apply (hoare_preserves (fun s => (voltage s, power_history s))
           (fun p => voltage_ok (fst p) /\ Forall sample_ok (items (snd p)))).
  frame.
Qed.

(** X7: every sample of the power history is a float that is neither NaN
    nor negative, and the stored voltage is the initial 0 or a finite float
    that is not negative: this holds at construction and after every turn
    of the loop, completed or not. *)
Theorem history_samples_not_negative :
  samples_ok PowerData_init
  /\ (forall env c s, samples_ok s -> samples_ok (final (run_cycle env c) s))
  /\ (forall s x, samples_ok s -> In x (items (power_history s)) -> py_nonneg x = true).
Proof.
  split; [ | split ].
  - split; [cbn; lia | constructor].
  - intros env c. apply run_cycle_invariant.
    + apply parse_update_samples.
    + intros prof lpm.
      apply (hoare_preserves (fun s => (voltage s, power_history s))
               (fun p => voltage_ok (fst p) /\ Forall sample_ok (items (snd p)))).
      frame.
  - intros s x [_ H] Hx. rewrite Forall_forall in H.
    destruct (H x Hx) as (f & -> & S). apply Sign.nonneg_of_sign, S.
Qed.

Lemma history_samples_not_negative_witness :
  let env := env_of (power_text "12000" "-500") "" "" in
  let s1 := final (run_cycle env DataCollector_init) PowerData_init in
  samples_ok s1
  /\ items (power_history s1) = [PFloat six]
  /\ py_nonneg (PFloat six) = true.
Proof.
  intros env s1. destruct history_samples_not_negative as (I & K & N).
  pose proof (K env DataCollector_init PowerData_init I) as H1. fold s1 in H1.
  assert (E : items (power_history s1) = [PFloat six]) by (vm_compute; reflexivity).
  split; [exact H1 | ]. split; [exact E | ].
  apply (N s1 (PFloat six) H1). rewrite E. left. reflexivity.
Defined.

(** ** What the key patterns read *)

Lemma lit_some (p s r : string) : lit p s = Some r -> s = p ++ r.
Proof.
  revert s. induction p as [ | c p IH]; intros s; cbn [lit append].
  - intros [= ->]. reflexivity.
  - destruct s as [ | d s]; [discriminate | ].
    destruct (Ascii.eqb_spec c d) as [-> | ]; [ | discriminate ].
    intros H. rewrite (IH _ H). reflexivity.
Qed.

Lemma lit_app (p r : string) : lit p (p ++ r) = Some r.
Proof.
  induction p as [ | c p IH]; cbn [lit append]; [reflexivity | ].
  rewrite Ascii.eqb_refl. exact IH.
Qed.

Lemma span_spec (f : ascii -> bool) (s a r : string) :
  span f s = (a, r) -> s = a ++ r /\ all_in f a = true /\ stops f r = true.
Proof.
  revert a r. induction s as [ | c s IH]; intros a r; cbn [span].
  - intros [= <- <-]. repeat split.
  - destruct (f c) eqn:Fc.
    + destruct (span f s) as [a' r']. intros [= <- <-].
      destruct (IH _ _ eq_refl) as (-> & Ha & Hr).
      cbn [append all_in]. rewrite Fc, Ha. repeat split. exact Hr.
    + intros [= <- <-]. cbn [append all_in stops]. rewrite Fc. repeat split.
Qed.

Lemma span_app (f : ascii -> bool) (a r : string) :
  all_in f a = true -> stops f r = true -> span f (a ++ r) = (a, r).
Proof.
  intros Ha Hr. induction a as [ | c a IH]; cbn [append].
  - destruct r as [ | d r]; [reflexivity | ].
    cbn [stops] in Hr. cbn [span].
    destruct (f d); [discriminate | reflexivity].
  - cbn [all_in] in Ha. apply andb_true_iff in Ha. destruct Ha as [Fc Ha].
    cbn [span]. rewrite Fc, (IH Ha). reflexivity.
Qed.

Lemma all_digits_all_in (s : string) : all_digits s = all_in is_digit s.
Proof. induction s as [ | c s IH]; cbn; [ | rewrite IH ]; reflexivity. Qed.

Lemma search_split {A} (m : string -> option A) (s : string) (a : A) :
  search m s = Some a -> exists pre t, s = pre ++ t /\ m t = Some a.
Proof.
  induction s as [ | c s IH]; cbn [search].
  - destruct (m "") eqn:E; [ | discriminate ].
    intros [= ->]. exists "", "". split; [reflexivity | exact E].
  - destruct (m (String c s)) eqn:E.
    + intros [= ->]. exists "", (String c s). split; [reflexivity | exact E].
    + intros H. destruct (IH H) as (pre & t & -> & Ht).
      exists (String c pre), t. split; [reflexivity | exact Ht].
Qed.

Lemma search_here {A} (m : string -> option A) (s : string) (a : A) :
  m s = Some a -> search m s = Some a.
Proof. intros H. destruct s; cbn [search]; rewrite H; reflexivity. Qed.

Lemma search_after_unquoted (key pre t : string) :
  no_dquote pre = true ->
  search (kv_digits key) (pre ++ t) = search (kv_digits key) t.
Proof.
  intros H. induction pre as [ | c pre IH]; [reflexivity | ].
  cbn [no_dquote] in H. apply andb_true_iff in H. destruct H as [Hc H].
  cbn [append search].
  assert (E : kv_digits key (String c (pre ++ t)) = None).
  { unfold kv_digits, key_eq, quoted. cbn [lit].
    destruct (Ascii.eqb_spec dquote c) as [<- | ]; [ | reflexivity ].
    rewrite Ascii.eqb_refl in Hc. discriminate. }
  rewrite E. exact (IH H).
Qed.

Lemma digit_not_space (c : ascii) : is_digit c = true -> is_space c = false.
Proof.
  unfold is_digit, is_space, between.
  repeat match goal with
         | |- context [(?a <=? ?b)%N] => destruct (N.leb_spec a b)
         end; cbn; try reflexivity; try discriminate; lia.
Qed.

Lemma kv_digits_here (key ws1 ws2 ds post : string) :
  all_in is_space ws1 = true -> all_in is_space ws2 = true ->
  all_digits ds = true -> ds <> "" -> stops is_digit post = true ->
  kv_digits key (quoted key ++ ws1 ++ "=" ++ ws2 ++ ds ++ post) = Some ds.
Proof.
  intros H1 H2 Hd Hn Hp. unfold kv_digits, key_eq, skip.
  rewrite lit_app. cbn [and_then].
  rewrite (span_app is_space ws1 ("=" ++ ws2 ++ ds ++ post) H1 eq_refl).
  cbn [snd append lit]. rewrite Ascii.eqb_refl. cbn [and_then].
  destruct ds as [ | d ds]; [contradiction | ].
  rewrite all_digits_all_in in Hd.
  assert (Hs : stops is_space (String d ds ++ post) = true).
  { cbn [append stops]. cbn [all_in] in Hd. apply andb_true_iff in Hd.
    rewrite (digit_not_space d (proj1 Hd)). reflexivity. }
  rewrite (span_app is_space ws2 _ H2 Hs). cbn [snd].
  unfold many1. rewrite (span_app is_digit _ _ Hd Hp). reflexivity.
Qed.

Lemma digits_value_uint_acc (d : Decimal.uint) (acc : positive) :
  digits_value (Z.pos acc) (NilEmpty.string_of_uint d) = Z.pos (Pos.of_uint_acc d acc).
Proof.
  revert acc. induction d; intros acc;
    cbn [NilEmpty.string_of_uint digits_value Pos.of_uint_acc];
    try reflexivity;
    match goal with
    | |- digits_value ?z _ = _ =>
        match goal with
        | |- _ = Z.pos (Pos.of_uint_acc _ ?q) =>
            replace z with (Z.pos q) by (cbn [N_of_ascii N_of_digits]; lia)
        end
    end; apply IHd.
Qed.

Lemma digits_value_uint (d : Decimal.uint) :
  digits_value 0 (NilEmpty.string_of_uint d) = Z.of_N (Pos.of_uint d).
Proof.
  induction d; cbn [NilEmpty.string_of_uint digits_value Pos.of_uint];
    try reflexivity;
    try (match goal with
         | |- digits_value ?z _ = Z.of_N (N.pos (Pos.of_uint_acc _ ?q)) =>
             replace z with (Z.pos q) by (vm_compute; reflexivity)
         end; cbn [Z.of_N]; apply digits_value_uint_acc).
  exact IHd.
Qed.

Lemma uint_all_digits (d : Decimal.uint) :
  all_digits (NilEmpty.string_of_uint d) = true.
Proof. induction d; cbn [NilEmpty.string_of_uint all_digits]; try reflexivity; exact IHd. Qed.

Lemma py_str_pos (p : positive) :
  exists d, py_str (Z.pos p) = NilEmpty.string_of_uint d
            /\ d <> Decimal.Nil /\ Pos.of_uint d = N.pos p.
Proof.
  exists (Pos.to_uint p). split; [ | split ].
  - unfold py_str. cbn [Z.to_int NilZero.string_of_int].
    pose proof (DecimalPos.Unsigned.to_uint_nonnil p) as H.
    destruct (Pos.to_uint p); [contradiction | reflexivity ..].
  - apply DecimalPos.Unsigned.to_uint_nonnil.
  - apply DecimalPos.Unsigned.of_to.
Qed.

Lemma uint_head (d : Decimal.uint) :
  d <> Decimal.Nil ->
  exists c r, NilEmpty.string_of_uint d = String c r /\ c <> "-"%char.
Proof.
  destruct d; [contradiction | ..]; intros _; cbn [NilEmpty.string_of_uint];
    eexists; eexists; (split; [reflexivity | discriminate]).
Qed.

Lemma py_str_digits (n : Z) :
  0 <= n -> all_digits (py_str n) = true /\ py_str n <> "".
Proof.
  intros H. destruct n as [ | p | p]; [ split; [reflexivity | discriminate] | | lia ].
  destruct (py_str_pos p) as (d & -> & Hd & _). split; [apply uint_all_digits | ].
  destruct (uint_head d Hd) as (c & r & -> & _). discriminate.
Qed.

Lemma py_int_py_str (n : Z) : py_int (py_str n) = n.
Proof.
  destruct n as [ | p | p]; [reflexivity | | ].
  - destruct (py_str_pos p) as (d & -> & Hd & E).
    destruct (uint_head d Hd) as (c & r & Hs & Hc).
    assert (V : digits_value 0 (NilEmpty.string_of_uint d) = Z.pos p)
      by (rewrite digits_value_uint, E; reflexivity).
    rewrite <- V. unfold py_int. rewrite Hs.
    destruct c as [[] [] [] [] [] [] [] []]; try reflexivity.
    contradiction Hc. reflexivity.
  - destruct (py_str_pos p) as (d & Hs & Hd & E).
    unfold py_str in *. cbn [Z.to_int NilZero.string_of_int] in *.
    cbn [py_int]. rewrite Hs, digits_value_uint, E. reflexivity.
Qed.

(** X8: a value read by the pattern ["KEY"\s*=\s*(\d+)] is in the text:
    it is a non-empty run of digits that follows the quoted key, optional
    blanks, an equals sign and optional blanks, and it is the whole run (no
    digit follows it). *)
Theorem kv_digits_sound (key text ds : string) :
  search (kv_digits key) text = Some ds ->
  exists pre ws1 ws2 post,
    text = pre ++ quoted key ++ ws1 ++ "=" ++ ws2 ++ ds ++ post
    /\ all_in is_space ws1 = true /\ all_in is_space ws2 = true
    /\ all_digits ds = true /\ ds <> "" /\ stops is_digit post = true.
Proof.
  intros H. apply search_split in H. destruct H as (pre & t & -> & H).
  unfold kv_digits, key_eq, skip in H.
  destruct (lit (quoted key) t) as [s1 | ] eqn:L1; [ | discriminate ].
  cbn [and_then] in H. apply lit_some in L1. subst t.
  destruct (span is_space s1) as [ws1 r1] eqn:S1. cbn [snd] in H.
  apply span_spec in S1. destruct S1 as (-> & W1 & _).
  destruct (lit "=" r1) as [s2 | ] eqn:L2; [ | discriminate ].
  cbn [and_then] in H. apply lit_some in L2. subst r1.
  destruct (span is_space s2) as [ws2 r2] eqn:S2. cbn [snd] in H.
  apply span_spec in S2. destruct S2 as (-> & W2 & _).
  unfold many1 in H. destruct (span is_digit r2) as [a post] eqn:S3.
  apply span_spec in S3. destruct S3 as (-> & D & P).
  destruct a as [ | c a]; [discriminate | ]. cbn [and_then] in H.
  injection H as <-.
  exists pre, ws1, ws2, post. rewrite all_digits_all_in.
  repeat split; try assumption. discriminate.
Qed.

Lemma kv_digits_sound_witness :
  exists pre ws1 ws2 post,
    (quoted "Serial" ++ " = x, " ++ quoted "CycleCount" ++ " = 42 ")%string
    = pre ++ quoted "CycleCount" ++ ws1 ++ "=" ++ ws2 ++ "42" ++ post
    /\ all_in is_space ws1 = true /\ all_in is_space ws2 = true
    /\ all_digits "42" = true /\ "42" <> "" /\ stops is_digit post = true.
Proof.
  apply (kv_digits_sound "CycleCount"). vm_compute. reflexivity.
Defined.

(** X9: a number written after a key is read back: in a text where
    nothing quoted comes before ["KEY"], the key is followed by optional
    blanks, an equals sign, optional blanks and the decimal form of
    n >= 0, of at most 4300 digits, and no digit follows, the pattern
    captures the decimal form of n and [int] of the capture returns n. *)
Theorem kv_digits_reads_back (key pre ws1 ws2 post : string) (n : Z) :
  0 <= n -> convertible (py_str n) -> no_dquote pre = true ->
  all_in is_space ws1 = true -> all_in is_space ws2 = true ->
  stops is_digit post = true ->
  search (kv_digits key) (pre ++ quoted key ++ ws1 ++ "=" ++ ws2 ++ py_str n ++ post)
  = Some (py_str n)
  /\ py_int_str (py_str n) = Ok n.
Proof.
  intros Hn Hl Hpre H1 H2 Hp. destruct (py_str_digits n Hn) as [Hd He]. split.
  - rewrite search_after_unquoted by exact Hpre.
    apply search_here. apply kv_digits_here; assumption.
  - rewrite (py_int_str_ok _ Hd Hl), py_int_py_str. reflexivity.
Qed.

Lemma kv_digits_reads_back_witness :
  search (kv_digits "DesignCapacity")
    ("  | " ++ quoted "DesignCapacity" ++ " " ++ "=" ++ "  " ++ py_str 4382 ++ " mAh")
  = Some (py_str 4382)
  /\ py_int_str (py_str 4382) = Ok 4382.
Proof.
  apply (kv_digits_reads_back "DesignCapacity" "  | " " " "  " " mAh" 4382);
    [lia | apply Nat.leb_le; vm_compute; reflexivity | reflexivity ..].
Defined.

(** Past the limit the capture is not converted: the 4301 digits of
    [10^4300] are captured, and [int] raises [ValueError] on them. *)
Lemma reads_back_over_limit :
  search (kv_digits "CycleCount") (quoted "CycleCount" ++ " = " ++ one_and_zeros 4300)
  = Some (one_and_zeros 4300)
  /\ py_int_str (one_and_zeros 4300) = Raise ValueError.
Proof. split; vm_compute; reflexivity. Qed.

(** ** The key commands *)

Lemma handle_key_cases (key : Z) (c : DataCollector) (s : PowerData) :
  handle_key key c s = (s, Ok (mk_DataCollector false (last_slow_check c), true))
  \/ handle_key key c s
     = (set_poll_interval lit_5_0 (set_mode "ECO" s), Ok (c, false))
  \/ handle_key key c s
     = (set_poll_interval lit_2_0 (set_mode "BALANCED" s), Ok (c, false))
  \/ handle_key key c s
     = (set_poll_interval lit_0_5 (set_mode "PERFORMANCE" s), Ok (c, false))
  \/ handle_key key c s = (s, Ok (c, false)).
Proof.
  unfold handle_key.
  destruct ((key =? 113)%Z || (key =? 81)%Z)%bool; [left; reflexivity | right ].
  destruct ((key =? 101)%Z || (key =? 69)%Z)%bool; [left; reflexivity | right ].
  destruct ((key =? 98)%Z || (key =? 66)%Z)%bool; [left; reflexivity | right ].
  destruct ((key =? 112)%Z || (key =? 80)%Z)%bool; [left; reflexivity | right ].
  reflexivity.
Qed.

(** X10: the poll mode and the poll interval always go together
    (PERFORMANCE with 0.5, BALANCED with 2.0, ECO with 5.0): they do at
    construction, a key command writes no other attribute of the snapshot
    and leaves the two paired, a turn of the collector keeps them, and so a
    completed turn sleeps for 0.5, 2.0 or 5.0 seconds. *)
Theorem mode_and_interval_paired :
  mode_ok PowerData_init
  /\ (forall key c s, mode_ok s ->
        mode_ok (final (handle_key key c) s)
        /\ set_poll_interval (poll_interval s)
             (set_mode (mode s) (final (handle_key key c) s)) = s)
  /\ (forall env c s, mode_ok s -> mode_ok (final (run_cycle env c) s))
  /\ (forall env c s c' dt,
        mode_ok s -> snd (run_cycle env c s) = Ok (c', dt) ->
        dt = lit_0_5 \/ dt = lit_2_0 \/ dt = lit_5_0).
Proof.
  split; [ | split; [ | split ] ].
  - right. left. split; reflexivity.
  - intros key c s Hs. unfold final.
    destruct (handle_key_cases key c s) as [E | [E | [E | [E | E]]]];
      rewrite E; cbn [fst]; (split; [ | destruct s; reflexivity ]).
    + exact Hs.
    + right. right. split; reflexivity.
    + right. left. split; reflexivity.
    + left. split; reflexivity.
    + exact Hs.
  - intros env c s Hs.
    pose proof (run_cycle_untouched env c s) as E. cbv beta in E.
    injection E as E1 E2 _ _ _ _ _.
    unfold mode_ok. rewrite E1, E2. exact Hs.
  - intros env c s c' dt Hs H. apply run_cycle_interval in H. subst dt.
    destruct Hs as [[_ E] | [[_ E] | [_ E]]]; rewrite E; auto.
Qed.

Lemma mode_and_interval_paired_witness :
  let s := final (handle_key 101 DataCollector_init) PowerData_init in
  mode_ok s /\ mode s = "ECO"
  /\ mode_ok (final (run_cycle (env_of "" "" "") DataCollector_init) s).
Proof.
  intros s. destruct mode_and_interval_paired as (I & K & R & _).
  destruct (K 101 DataCollector_init PowerData_init I) as [Hs _]. fold s in Hs.
  split; [exact Hs | ]. split; [reflexivity | ].
  exact (R (env_of "" "" "") DataCollector_init s Hs).
Defined.

(** ** The renderer *)










(** X13: the animation index never leaves the list: for every integer
    frame counter, negative ones included, the power flow is drawn as one
    write at the given position, its text is one of the five frames of the
    direction, and the animation repeats every five frames. *)
Theorem power_flow_any_frame (y x : Z) (is_charging : bool) (frame : Z) :
  exists text,
    draw_power_flow y x is_charging frame
    = Done [ AddStrAt y x text (Some (mk_attr (if is_charging then 2 else 3) true)) ]
    /\ In text (if is_charging then flow_charging else flow_discharging)
    /\ draw_power_flow y x is_charging (frame + 5)
       = draw_power_flow y x is_charging frame.
Proof.
  unfold draw_power_flow.
  replace ((frame + 5) mod 5) with (frame mod 5)
    by (rewrite <- (Z.mul_1_l 5) at 2; rewrite Z.mod_add; lia).
  pose proof (Z.mod_pos_bound frame 5 ltac:(lia)) as B.
  assert (C : frame mod 5 = 0 \/ frame mod 5 = 1 \/ frame mod 5 = 2
              \/ frame mod 5 = 3 \/ frame mod 5 = 4) by lia.
  destruct is_charging;
    destruct C as [-> | [-> | [-> | [-> | ->]]]];
    (eexists; split; [reflexivity | split; [cbn; tauto | reflexivity]]).
Qed.








